(** * Intel x520 EEPROM patcher: a shallow embedding of [patch.py]

    The script is a straight-line program: it reads its argument, two
    sysfs attribute files, one EEPROM byte through [ethtool -e], and
    writes the byte back with bit 0 set through [ethtool -E].

    Text is modelled by [string], whose characters are the code points
    below 256.  Python integers are unbounded, so they are [Z], and
    [&] and [|] are [Z.land] and [Z.lor] (two's complement on negative
    numbers, as in Python). *)

From Stdlib Require Import ZArith List String Ascii Bool Lia.
From Stdlib Require HexadecimalString DecimalString HexadecimalPos HexadecimalN.
Import ListNotations.
Open Scope string_scope.
Open Scope Z_scope.

(** ** The string operations of the Python runtime used by the script *)

Module PyStr.

(** [str.isspace] on one character: TAB..CR, FS..US, space, NEL, NBSP. *)
Definition is_space (c : ascii) : bool :=
  let n := Z.of_N (N_of_ascii c) in
  ((9 <=? n) && (n <=? 13)) || ((28 <=? n) && (n <=? 32))
  || (n =? 133) || (n =? 160).

Fixpoint lstrip (s : string) : string :=
  match s with
  | EmptyString => EmptyString
  | String c s' => if is_space c then lstrip s' else s
  end.

Fixpoint rstrip (s : string) : string :=
  match s with
  | EmptyString => EmptyString
  | String c s' =>
      match rstrip s' with
      | EmptyString => if is_space c then EmptyString else String c EmptyString
      | r => String c r
      end
  end.

(** [s.strip()] *)
Definition strip (s : string) : string := rstrip (lstrip s).

(** [s.split(sep)] for a one-character separator: never empty. *)
Fixpoint split_on (sep : ascii) (s : string) : list string :=
  match s with
  | EmptyString => [EmptyString]
  | String c s' =>
      if Ascii.eqb c sep then EmptyString :: split_on sep s'
      else match split_on sep s' with
           | h :: t => String c h :: t
           | [] => [String c EmptyString]
           end
  end.

Definition cons_word (w : string) (ws : list string) : list string :=
  match w with EmptyString => ws | _ => w :: ws end.

(** The word that starts at the head of [s] (empty when [s] starts with
    white space) and the words after it. *)
Fixpoint split_go (s : string) : string * list string :=
  match s with
  | EmptyString => (EmptyString, [])
  | String c s' =>
      let (w, ws) := split_go s' in
      if is_space c then (EmptyString, cons_word w ws) else (String c w, ws)
  end.

(** [s.split()]: the maximal runs of characters that are not white space. *)
Definition split (s : string) : list string :=
  let (w, ws) := split_go s in cons_word w ws.

(** [xs[-1]]; [None] stands for [IndexError]. *)
Fixpoint last_item {A : Type} (xs : list A) : option A :=
  match xs with
  | [] => None
  | [x] => Some x
  | _ :: xs' => last_item xs'
  end.

(** [s[n:]] *)
Fixpoint drop (n : nat) (s : string) : string :=
  match n, s with
  | O, _ => s
  | S _, EmptyString => EmptyString
  | S n', String _ s' => drop n' s'
  end.

(** [needle in hay] for two strings: the substring test. *)
Fixpoint str_in (needle hay : string) : bool :=
  String.prefix needle hay
  || match hay with
     | EmptyString => false
     | String _ hay' => str_in needle hay'
     end.

(** [x in (a, b, ...)] for a tuple of strings: equality with a member. *)
Definition tuple_in (x : string) (items : list string) : bool :=
  existsb (String.eqb x) items.

(** [sep.join(items)] *)
Fixpoint join (sep : string) (items : list string) : string :=
  match items with
  | [] => EmptyString
  | [x] => x
  | x :: rest => x ++ sep ++ join sep rest
  end.

Definition hex_digit (c : ascii) : option Z :=
  let n := Z.of_N (N_of_ascii c) in
  if (48 <=? n) && (n <=? 57) then Some (n - 48)
  else if (97 <=? n) && (n <=? 102) then Some (n - 87)
  else if (65 <=? n) && (n <=? 70) then Some (n - 55)
  else None.

(** The digit loop of [int(s, 16)]: one underscore is allowed between
    two digits, nowhere else. *)
Fixpoint scan16 (s : string) (after_us : bool) (acc : Z) : option Z :=
  match s with
  | EmptyString => if after_us then None else Some acc
  | String c s' =>
      if Ascii.eqb c "_" then
        if after_us then None else scan16 s' true acc
      else match hex_digit c with
           | Some d => scan16 s' false (16 * acc + d)
           | None => None
           end
  end.

Definition digits16 (s : string) : option Z :=
  match s with
  | EmptyString => None
  | String c _ => if Ascii.eqb c "_" then None else scan16 s false 0
  end.

Definition unprefix16 (s : string) : string :=
  match s with
  | String "0" (String x s') =>
      if Ascii.eqb x "x" || Ascii.eqb x "X" then
        match s' with
        | String "_" s'' => s''
        | _ => s'
        end
      else s
  | _ => s
  end.

(** The white space [int] skips around the number: TAB..CR and space,
    and the white space above the ASCII range (NEL, NBSP); unlike
    [str.strip], not FS..US. *)
Definition is_int_space (c : ascii) : bool :=
  let n := Z.of_N (N_of_ascii c) in
  ((9 <=? n) && (n <=? 13)) || (n =? 32) || (n =? 133) || (n =? 160).

Fixpoint int_lstrip (s : string) : string :=
  match s with
  | EmptyString => EmptyString
  | String c s' => if is_int_space c then int_lstrip s' else s
  end.

Fixpoint int_rstrip (s : string) : string :=
  match s with
  | EmptyString => EmptyString
  | String c s' =>
      match int_rstrip s' with
      | EmptyString =>
          if is_int_space c then EmptyString else String c EmptyString
      | r => String c r
      end
  end.

Definition int_strip (s : string) : string := int_rstrip (int_lstrip s).

(** [int(s, 16)]; [None] stands for [ValueError]. *)
Definition int16 (s : string) : option Z :=
  match int_strip s with
  | String "-" s' => option_map Z.opp (digits16 (unprefix16 s'))
  | String "+" s' => digits16 (unprefix16 s')
  | s' => digits16 (unprefix16 s')
  end.

Fixpoint bin_pos (p : positive) (acc : string) : string :=
  match p with
  | xH => String "1" acc
  | xO p' => bin_pos p' (String "0" acc)
  | xI p' => bin_pos p' (String "1" acc)
  end.

Definition bin_abs (n : Z) : string :=
  match n with
  | Z0 => "0"
  | Zpos p | Zneg p => bin_pos p EmptyString
  end.

Definition sign_of (n : Z) : string := if n <? 0 then "-" else "".

(** [bin(n)] *)
Definition bin (n : Z) : string := sign_of n ++ "0b" ++ bin_abs n.

(** [hex(n)] *)
Definition hex (n : Z) : string :=
  sign_of n ++ "0x"
  ++ HexadecimalString.NilZero.string_of_uint (N.to_hex_uint (Z.abs_N n)).

End PyStr.

Import PyStr.

(** ** Runs: what the script can observe, what it does, how it ends *)

(** What [subprocess.check_output(...).decode('utf-8')] can raise. *)
Inductive proc_error : Type :=
| FileNotFoundError
| PermissionError
| CalledProcessError (returncode : Z)
| UnicodeDecodeError.

(** What [open(path)] and [f.read()] can raise: an [IOError] ([OSError]
    and its subclasses), or the [UnicodeDecodeError] of a text that does
    not decode. *)
Inductive file_error : Type :=
| IOError
| DecodeError.

(** The exceptions that no handler of the script catches.  [ValueError]
    stands for the class and its subclasses: the [ValueError] of [int]
    and the [UnicodeDecodeError] of [f.read()]. *)
Inductive exn : Type :=
| IndexError
| ValueError
| NameError
| ProcError (e : proc_error).

(** How the process ends: [sys.exit(code)] (falling off the end of the
    script is [Exit 0]) or an exception that reaches the top level. *)
Inductive outcome : Type :=
| Exit (code : Z)
| Uncaught (e : exn).

(** The status the interpreter hands to the operating system: the
    argument of [sys.exit], and 1 after a traceback. *)
Definition exit_status (o : outcome) : Z :=
  match o with
  | Exit code => code
  | Uncaught _ => 1
  end.

(** An element of the list [cmd]: ten strings and the integer [1]. *)
Inductive arg : Type :=
| AStr (s : string)
| AInt (n : Z).

(** [str(x)]: a string is itself, an integer is printed in decimal. *)
Definition str (a : arg) : string :=
  match a with
  | AStr s => s
  | AInt n =>
      sign_of n
      ++ DecimalString.NilZero.string_of_uint (N.to_uint (Z.abs_N n))
  end.

(** What a run does to the outside, in order. *)
Inductive event : Type :=
| Print (line : string)              (* print(line) *)
| PrintRunning (cmd : list arg)      (* print("Running {}".format(cmd)) *)
| Open (path : string)               (* open(path) *)
| CheckOutput (argv : list string)   (* subprocess.check_output(argv) *)
| System (cmd : string) (status : Z) (* os.system(cmd), and what it returned *).

(** The host as the script sees it. *)
Record world : Type := {
  argv0 : string;                       (* sys.argv[0] *)
  args : list string;                   (* sys.argv[1:] *)
  read_file : string -> string + file_error;  (* open(p), then f.read() *)
  check_output : list string -> string + proc_error;
  os_system : string -> Z
}.

(** A small writer-and-exit monad: the events so far, and either a value
    to go on with or the end of the process. *)
Inductive result (A : Type) : Type :=
| Val (a : A)
| Halt (o : outcome).
Arguments Val {A} a.
Arguments Halt {A} o.

Definition prog (A : Type) : Type := (list event * result A)%type.

Definition ret {A : Type} (a : A) : prog A := ([], Val a).

Definition bind {A B : Type} (m : prog A) (k : A -> prog B) : prog B :=
  match m with
  | (t, Val a) => let (t', r) := k a in ((t ++ t')%list, r)
  | (t, Halt o) => (t, Halt o)
  end.

Definition emit (e : event) : prog unit := ([e], Val tt).
Definition print (line : string) : prog unit := emit (Print line).
Definition halt {A : Type} (o : outcome) : prog A := ([], Halt o).

Declare Scope prog_scope.
Delimit Scope prog_scope with prog.
Notation "x <- m ;; k" := (bind m (fun x => k))
  (at level 61, m at next level, right associativity) : prog_scope.
Notation "m ;; k" := (bind m (fun _ => k))
  (at level 61, right associativity) : prog_scope.
Open Scope prog_scope.

(** ** The script, statement by statement *)

Definition vendor_path (intf : string) : string :=
  "/sys/class/net/" ++ intf ++ "/device/vendor".
Definition device_path (intf : string) : string :=
  "/sys/class/net/" ++ intf ++ "/device/device".

(** [try: intf = sys.argv[1]  except IndexError: ... sys.exit(255)] *)
Definition get_intf (w : world) : prog string :=
  match args w with
  | intf :: _ => ret intf
  | [] => print (argv0 w ++ " <interface>") ;; halt (Exit 255)
  end.

(** [with open(path) as f: x = f.read().strip()] inside the second
    [try]; its handler, [except IOError], prints and leaves with 2.  A
    [UnicodeDecodeError] is a [ValueError], not an [IOError]: the handler
    lets it through and nothing else catches it. *)
Definition read_attr (w : world) (path : string) : prog string :=
  emit (Open path) ;;
  match read_file w path with
  | inl text => ret (strip text)
  | inr IOError => print "Can't read interface data." ;; halt (Exit 2)
  | inr DecodeError => halt (Uncaught ValueError)
  end.

(** The accepting side of
    [if vdr_id not in ('0x8086') or dev_id not in ('0x10fb', '0x154d')]:
    [('0x8086')] is a parenthesised string, so the first test is the
    substring test; the second is membership in a tuple. *)
Definition recognized (vdr_id dev_id : string) : bool :=
  negb (negb (str_in vdr_id "0x8086")
        || negb (tuple_in dev_id ["0x10fb"; "0x154d"])).

Definition recognize (vdr_id dev_id : string) : prog unit :=
  if negb (str_in vdr_id "0x8086")
     || negb (tuple_in dev_id ["0x10fb"; "0x154d"])
  then print "Not a recognized Intel x520 card." ;; halt (Exit 3)
  else ret tt.

Definition read_argv (intf : string) : list string :=
  ["ethtool"; "-e"; intf; "offset"; "0x58"; "length"; "1"].

(** [subprocess.check_output([...]).decode('utf-8')] *)
Definition read_eeprom (w : world) (intf : string) : prog string :=
  emit (CheckOutput (read_argv intf)) ;;
  match check_output w (read_argv intf) with
  | inl output => ret output
  | inr e => halt (Uncaught (ProcError e))
  end.

Definition newline : ascii := ascii_of_nat 10.

(** [val = output.strip().split('\n')[-1].split()[-1]] *)
Definition parse_val (output : string) : prog string :=
  match last_item (split_on newline (strip output)) with
  | None => halt (Uncaught IndexError)
  | Some line =>
      match last_item (split line) with
      | None => halt (Uncaught IndexError)
      | Some val => ret val
      end
  end.

(** [val_bin = int(val, 16)] *)
Definition parse_int (val : string) : prog Z :=
  match int16 val with
  | Some n => ret n
  | None => halt (Uncaught ValueError)
  end.

(** The two [if] statements on bit 0; [&] binds tighter than [==], so
    each test is [(val_bin & 1) == k].  The first one leaves with 1
    ([exit] is [sys.exit]); the second one binds [new_val].  The value
    is the binding of [new_val] after both: [None] when it is unbound. *)
Definition policy (val_bin : Z) : prog (option Z) :=
  (if Z.land val_bin 1 =? 1
   then print "Card is already unlocked for all SFP modules. Nothing to do." ;;
        halt (Exit 1)
   else ret tt) ;;
  if Z.land val_bin 1 =? 0
  then print "Card is locked to Intel only SFP modules. Patching EEPROM..." ;;
       let new_val := Z.lor val_bin 1 in
       print ("New EEPROM Value at 0x58 will be " ++ hex new_val
              ++ " (" ++ bin new_val ++ ")") ;;
       ret (Some new_val)
  else ret None.

(** [magic = "%s%s" % (dev_id, vdr_id[2:])] *)
Definition magic (dev_id vdr_id : string) : string :=
  dev_id ++ drop 2 vdr_id.

(** [cmd = ['ethtool', '-E', intf, 'magic', magic, 'offset', '0x58',
            'value', hex(new_val), 'length', 1]] *)
Definition write_cmd (intf magic : string) (new_val : Z) : list arg :=
  [AStr "ethtool"; AStr "-E"; AStr intf; AStr "magic"; AStr magic;
   AStr "offset"; AStr "0x58"; AStr "value"; AStr (hex new_val);
   AStr "length"; AInt 1].

(** [' '.join(map(str, cmd))] *)
Definition command_line (cmd : list arg) : string := join " " (map str cmd).

(** Reading the name [new_val]: [NameError] when it is unbound. *)
Definition lookup_new_val (new_val : option Z) : prog Z :=
  match new_val with
  | Some v => ret v
  | None => halt (Uncaught NameError)
  end.

Definition main (w : world) : prog unit :=
  intf <- get_intf w ;;
  vdr_id <- read_attr w (vendor_path intf) ;;
  dev_id <- read_attr w (device_path intf) ;;
  recognize vdr_id dev_id ;;
  output <- read_eeprom w intf ;;
  val <- parse_val output ;;
  val_bin <- parse_int val ;;
  print ("EEPROM Value at 0x58 is 0x" ++ val ++ " (" ++ bin val_bin ++ ")") ;;
  new_val <- policy val_bin ;;
  let magic := magic dev_id vdr_id in
  v <- lookup_new_val new_val ;;
  let cmd := write_cmd intf magic v in
  emit (PrintRunning cmd) ;;
  let cmd := command_line cmd in
  emit (System cmd (os_system w cmd)) ;;
  print "Reboot the machine for changes to take effect...".

(** A whole run: the events and the way the process ends. *)
Definition run (w : world) : list event * outcome :=
  match main w with
  | (t, Val _) => (t, Exit 0)
  | (t, Halt o) => (t, o)
  end.

Definition trace (w : world) : list event := fst (run w).
Definition ending (w : world) : outcome := snd (run w).

(** ** Observations on a trace *)

Definition is_write (e : event) : bool :=
  match e with System _ _ => true | _ => false end.
Definition is_accessor (e : event) : bool :=
  match e with System _ _ | CheckOutput _ => true | _ => false end.

Definition writes (t : list event) : list event := filter is_write t.
Definition accessor_calls (t : list event) : list event := filter is_accessor t.

(** ** The run in two halves

    [acquire] is the script up to [val_bin = int(val, 16)], [finish] is
    the rest; [main_split] below shows that [main] is one after the
    other. *)

(** The names bound by the first half. *)
Record readout : Type := {
  r_intf : string;
  r_vdr_id : string;
  r_dev_id : string;
  r_val : string;
  r_val_bin : Z
}.

Definition acquire (w : world) : prog readout :=
  intf <- get_intf w ;;
  vdr_id <- read_attr w (vendor_path intf) ;;
  dev_id <- read_attr w (device_path intf) ;;
  recognize vdr_id dev_id ;;
  output <- read_eeprom w intf ;;
  val <- parse_val output ;;
  val_bin <- parse_int val ;;
  ret {| r_intf := intf; r_vdr_id := vdr_id; r_dev_id := dev_id;
         r_val := val; r_val_bin := val_bin |}.

Definition finish (w : world) (r : readout) : prog unit :=
  print ("EEPROM Value at 0x58 is 0x" ++ r_val r
         ++ " (" ++ bin (r_val_bin r) ++ ")") ;;
  new_val <- policy (r_val_bin r) ;;
  let magic := magic (r_dev_id r) (r_vdr_id r) in
  v <- lookup_new_val new_val ;;
  let cmd := write_cmd (r_intf r) magic v in
  emit (PrintRunning cmd) ;;
  let cmd := command_line cmd in
  emit (System cmd (os_system w cmd)) ;;
  print "Reboot the machine for changes to take effect...".

(** ** Readings of the policy *)

Inductive PatchDecision : Type :=
| AlreadyUnlocked
| NeedsPatch.

(** The decision the two [if] statements take, read off what [policy]
    does: leaving with 1 is [AlreadyUnlocked], binding [new_val] is
    [NeedsPatch]; anything else is no decision. *)
Definition decision (val_bin : Z) : option PatchDecision :=
  match snd (policy val_bin) with
  | Halt (Exit 1) => Some AlreadyUnlocked
  | Val (Some _) => Some NeedsPatch
  | _ => None
  end.

(** The value the script writes back for [val_bin], when it binds one. *)
Definition patch (val_bin : Z) : option Z :=
  match snd (policy val_bin) with
  | Val new_val => new_val
  | Halt _ => None
  end.

(** ** Readings of the recognizer *)

(** The allow-list as the specification words it: the pair is one of
    ("0x8086", "0x10fb") and ("0x8086", "0x154d"). *)
Definition allow_listed (vdr_id dev_id : string) : bool :=
  String.eqb vdr_id "0x8086"
  && (String.eqb dev_id "0x10fb" || String.eqb dev_id "0x154d").

(** The strings [v] with [v in s]: the prefixes of [s] and of its tails. *)
Fixpoint prefixes (s : string) : list string :=
  match s with
  | EmptyString => [EmptyString]
  | String c s' => EmptyString :: map (String c) (prefixes s')
  end.

(** The strings [v] with [v in s], with repetitions. *)
Fixpoint substrings (s : string) : list string :=
  (prefixes s
   ++ match s with
      | EmptyString => []
      | String _ s' => substrings s'
      end)%list.

(** ** The shapes of a run *)

(** The events of a run that gets as far as the EEPROM read. *)
Definition probe (intf : string) : list event :=
  [Open (vendor_path intf); Open (device_path intf);
   CheckOutput (read_argv intf)].

(** The line printed after the read. *)
Definition value_line (r : readout) : string :=
  "EEPROM Value at 0x58 is 0x" ++ r_val r ++ " (" ++ bin (r_val_bin r) ++ ")".

(** The line printed before the write. *)
Definition new_value_line (new_val : Z) : string :=
  "New EEPROM Value at 0x58 will be " ++ hex new_val
  ++ " (" ++ bin new_val ++ ")".

(** The list [cmd] of a run that read [r]. *)
Definition cmd_of (r : readout) : list arg :=
  write_cmd (r_intf r) (magic (r_dev_id r) (r_vdr_id r))
            (Z.lor (r_val_bin r) 1).

(** What a run does after the read when bit 0 is set. *)
Definition unlocked_tail (r : readout) : list event :=
  [Print (value_line r);
   Print "Card is already unlocked for all SFP modules. Nothing to do."].

(** What a run does after the read when bit 0 is clear. *)
Definition patch_tail (w : world) (r : readout) : list event :=
  [Print (value_line r);
   Print "Card is locked to Intel only SFP modules. Patching EEPROM...";
   Print (new_value_line (Z.lor (r_val_bin r) 1));
   PrintRunning (cmd_of r);
   System (command_line (cmd_of r)) (os_system w (command_line (cmd_of r)));
   Print "Reboot the machine for changes to take effect..."].

(** What [acquire] can give, with the facts of the host behind each case. *)
Inductive Acquire (w : world) : prog readout -> Prop :=
| Acq_usage :
    args w = [] ->
    Acquire w ([Print (argv0 w ++ " <interface>")], Halt (Exit 255))
| Acq_no_vendor intf rest :
    args w = intf :: rest ->
    read_file w (vendor_path intf) = inr IOError ->
    Acquire w ([Open (vendor_path intf); Print "Can't read interface data."],
               Halt (Exit 2))
| Acq_vendor_undecodable intf rest :
    args w = intf :: rest ->
    read_file w (vendor_path intf) = inr DecodeError ->
    Acquire w ([Open (vendor_path intf)], Halt (Uncaught ValueError))
| Acq_device_undecodable intf rest vt :
    args w = intf :: rest ->
    read_file w (vendor_path intf) = inl vt ->
    read_file w (device_path intf) = inr DecodeError ->
    Acquire w ([Open (vendor_path intf); Open (device_path intf)],
               Halt (Uncaught ValueError))
| Acq_no_device intf rest vt :
    args w = intf :: rest ->
    read_file w (vendor_path intf) = inl vt ->
    read_file w (device_path intf) = inr IOError ->
    Acquire w ([Open (vendor_path intf); Open (device_path intf);
                Print "Can't read interface data."],
               Halt (Exit 2))
| Acq_unrecognized intf rest vt dt :
    args w = intf :: rest ->
    read_file w (vendor_path intf) = inl vt ->
    read_file w (device_path intf) = inl dt ->
    recognized (strip vt) (strip dt) = false ->
    Acquire w ([Open (vendor_path intf); Open (device_path intf);
                Print "Not a recognized Intel x520 card."],
               Halt (Exit 3))
| Acq_read_error intf rest vt dt e :
    args w = intf :: rest ->
    read_file w (vendor_path intf) = inl vt ->
    read_file w (device_path intf) = inl dt ->
    recognized (strip vt) (strip dt) = true ->
    check_output w (read_argv intf) = inr e ->
    Acquire w (probe intf, Halt (Uncaught (ProcError e)))
| Acq_no_token intf rest vt dt output :
    args w = intf :: rest ->
    read_file w (vendor_path intf) = inl vt ->
    read_file w (device_path intf) = inl dt ->
    recognized (strip vt) (strip dt) = true ->
    check_output w (read_argv intf) = inl output ->
    parse_val output = halt (Uncaught IndexError) ->
    Acquire w (probe intf, Halt (Uncaught IndexError))
| Acq_bad_hex intf rest vt dt output val :
    args w = intf :: rest ->
    read_file w (vendor_path intf) = inl vt ->
    read_file w (device_path intf) = inl dt ->
    recognized (strip vt) (strip dt) = true ->
    check_output w (read_argv intf) = inl output ->
    parse_val output = ret val ->
    int16 val = None ->
    Acquire w (probe intf, Halt (Uncaught ValueError))
| Acq_ok intf rest vt dt output val b :
    args w = intf :: rest ->
    read_file w (vendor_path intf) = inl vt ->
    read_file w (device_path intf) = inl dt ->
    recognized (strip vt) (strip dt) = true ->
    check_output w (read_argv intf) = inl output ->
    parse_val output = ret val ->
    int16 val = Some b ->
    Acquire w (probe intf,
               Val {| r_intf := intf; r_vdr_id := strip vt;
                      r_dev_id := strip dt; r_val := val; r_val_bin := b |}).

(** The three shapes of a run. *)
Inductive Run (w : world) : list event * outcome -> Prop :=
| Run_stopped t o :
    acquire w = (t, Halt o) -> Run w (t, o)
| Run_unlocked r :
    acquire w = (probe (r_intf r), Val r) ->
    Z.land (r_val_bin r) 1 = 1 ->
    Run w ((probe (r_intf r) ++ unlocked_tail r)%list, Exit 1)
| Run_patched r :
    acquire w = (probe (r_intf r), Val r) ->
    Z.land (r_val_bin r) 1 = 0 ->
    Run w ((probe (r_intf r) ++ patch_tail w r)%list, Exit 0).

(** The ways a run stops before the policy, by what the host does: no
    argument; an attribute file that cannot be opened or read; a pair
    the guard of the script rejects; a read command that fails or whose
    output does not parse. *)
Inductive Failure (w : world) : Prop :=
| Missing_argument :
    args w = [] -> Failure w
| Identity_read_failure intf rest :
    args w = intf :: rest ->
    (exists e, read_file w (vendor_path intf) = inr e)
    \/ (exists e, read_file w (device_path intf) = inr e) ->
    Failure w
| Rejected_by_guard intf rest vt dt :
    args w = intf :: rest ->
    read_file w (vendor_path intf) = inl vt ->
    read_file w (device_path intf) = inl dt ->
    recognized (strip vt) (strip dt) = false ->
    Failure w
| Accessor_read_failure intf rest vt dt :
    args w = intf :: rest ->
    read_file w (vendor_path intf) = inl vt ->
    read_file w (device_path intf) = inl dt ->
    recognized (strip vt) (strip dt) = true ->
    (exists e, check_output w (read_argv intf) = inr e)
    \/ (exists output,
          check_output w (read_argv intf) = inl output
          /\ (snd (parse_val output) = Halt (Uncaught IndexError)
              \/ exists val,
                   parse_val output = ret val /\ int16 val = None)) ->
    Failure w.

(** ** Concrete hosts *)

Definition nl : string := String newline EmptyString.
Definition tab : string := String (ascii_of_nat 9) EmptyString.

(** The text [ethtool -e ... offset 0x58 length 1] prints for one byte. *)
Definition ethtool_dump (byte : string) : string :=
  "Offset" ++ tab ++ tab ++ "Values" ++ nl
  ++ "------" ++ tab ++ tab ++ "------" ++ nl
  ++ "0x0058:" ++ tab ++ tab ++ byte ++ " " ++ nl.

(** A host with one interface [eth4] whose attribute files hold the two
    given texts, whose EEPROM read answers [rd] and whose write command
    returns [status]. *)
Definition host (vendor device : string) (rd : string + proc_error)
    (status : Z) : world :=
  {| argv0 := "patch.py";
     args := ["eth4"];
     read_file := fun p =>
       if String.eqb p (vendor_path "eth4") then inl vendor
       else if String.eqb p (device_path "eth4") then inl device
       else inr IOError;
     check_output := fun _ => rd;
     os_system := fun _ => status |}.

(** Scenario A: an x520 whose byte at 0x58 is 0x00. *)
Definition host_locked : world :=
  host ("0x8086" ++ nl) ("0x10fb" ++ nl) (inl (ethtool_dump "00")) 0.

(** Scenario B: an x520 whose byte at 0x58 is 0x07. *)
Definition host_unlocked : world :=
  host ("0x8086" ++ nl) ("0x154d" ++ nl) (inl (ethtool_dump "07")) 0.

(** Scenario C: a device id outside the list. *)
Definition host_other_card : world :=
  host ("0x8086" ++ nl) ("0x10c6" ++ nl) (inl (ethtool_dump "00")) 0.




(** A host whose [ethtool -e] fails with status 75. *)
Definition host_read_fails : world :=
  host ("0x8086" ++ nl) ("0x10fb" ++ nl) (inr (CalledProcessError 75)) 0.

(** A host whose [ethtool -E] returns a failure status. *)
Definition host_write_fails : world :=
  host ("0x8086" ++ nl) ("0x10fb" ++ nl) (inl (ethtool_dump "00")) 256.

(** A host whose EEPROM read answers an even value of nine bits. *)
Definition host_wide_even : world :=
  host ("0x8086" ++ nl) ("0x10fb" ++ nl) (inl (ethtool_dump "100")) 0.

(** A host whose EEPROM read answers an odd value of nine bits. *)
Definition host_wide_odd : world :=
  host ("0x8086" ++ nl) ("0x10fb" ++ nl) (inl (ethtool_dump "101")) 0.

(** A host whose vendor file holds "8086", without the "0x". *)
Definition host_bare_vendor : world :=
  host ("8086" ++ nl) ("0x10fb" ++ nl) (inl (ethtool_dump "fc")) 0.

(** ** Readings of the parser and of the printed numbers *)

(** [all(p(c) for c in s)] *)
Fixpoint all_chars (p : ascii -> bool) (s : string) : bool :=
  match s with
  | EmptyString => true
  | String c s' => p c && all_chars p s'
  end.

(** A text of white space only ([s.strip() == '']). *)
Definition blank (s : string) : bool := all_chars is_space s.

(** A text without white space. *)
Definition solid (s : string) : bool := all_chars (fun c => negb (is_space c)) s.

Definition is_hex (c : ascii) : bool :=
  match hex_digit c with Some _ => true | None => false end.

(** The number a run of hexadecimal digits denotes, after [acc]. *)
Fixpoint hex_value (s : string) (acc : Z) : Z :=
  match s with
  | EmptyString => acc
  | String c s' =>
      match hex_digit c with
      | Some d => hex_value s' (16 * acc + d)
      | None => acc
      end
  end.

(** [text.split('\n')[-1]] *)
Definition last_line (s : string) : string :=
  match last_item (split_on newline s) with
  | Some l => l
  | None => EmptyString
  end.

(** The number a digit list of the standard library denotes, after [acc]. *)
Fixpoint uint_value (d : Hexadecimal.uint) (acc : Z) : Z :=
  match d with
  | Hexadecimal.Nil => acc
  | Hexadecimal.D0 l => uint_value l (16 * acc + 0)
  | Hexadecimal.D1 l => uint_value l (16 * acc + 1)
  | Hexadecimal.D2 l => uint_value l (16 * acc + 2)
  | Hexadecimal.D3 l => uint_value l (16 * acc + 3)
  | Hexadecimal.D4 l => uint_value l (16 * acc + 4)
  | Hexadecimal.D5 l => uint_value l (16 * acc + 5)
  | Hexadecimal.D6 l => uint_value l (16 * acc + 6)
  | Hexadecimal.D7 l => uint_value l (16 * acc + 7)
  | Hexadecimal.D8 l => uint_value l (16 * acc + 8)
  | Hexadecimal.D9 l => uint_value l (16 * acc + 9)
  | Hexadecimal.Da l => uint_value l (16 * acc + 10)
  | Hexadecimal.Db l => uint_value l (16 * acc + 11)
  | Hexadecimal.Dc l => uint_value l (16 * acc + 12)
  | Hexadecimal.Dd l => uint_value l (16 * acc + 13)
  | Hexadecimal.De l => uint_value l (16 * acc + 14)
  | Hexadecimal.Df l => uint_value l (16 * acc + 15)
  end.

(** ** Further observations on a trace *)

Definition is_open (e : event) : bool :=
  match e with Open _ => true | _ => false end.

Definition opens (t : list event) : list event := filter is_open t.

(** The line printed just before each [sys.exit], and before the script
    runs off its end. *)
Definition exit_message (w : world) (code : Z) : string :=
  if code =? 255 then argv0 w ++ " <interface>"
  else if code =? 2 then "Can't read interface data."
  else if code =? 3 then "Not a recognized Intel x520 card."
  else if code =? 1 then
    "Card is already unlocked for all SFP modules. Nothing to do."
  else "Reboot the machine for changes to take effect...".

(** ** The monad's equations *)

Lemma bind_halt {A B : Type} (t : list event) (o : outcome) (k : A -> prog B) :
  bind (t, Halt o) k = (t, Halt o).
Proof. reflexivity. Qed.

Lemma bind_val {A B : Type} (t : list event) (a : A) (k : A -> prog B) :
  bind (t, Val a) k = ((t ++ fst (k a))%list, snd (k a)).
Proof. unfold bind. destruct (k a); reflexivity. Qed.

Lemma bind_assoc {A B C : Type} (m : prog A) (f : A -> prog B) (g : B -> prog C) :
  bind (bind m f) g = bind m (fun a => bind (f a) g).
Proof.
  destruct m as [t [a | o]]; [| reflexivity].
  unfold bind at 2 3. destruct (f a) as [t1 [b | o]].
  - rewrite bind_val. unfold bind. destruct (g b) as [t2 r]; cbn.
    now rewrite app_assoc.
  - reflexivity.
Qed.

Lemma bind_ext {A B : Type} (m : prog A) (f g : A -> prog B) :
  (forall a, f a = g a) -> bind m f = bind m g.
Proof.
  intros E. destruct m as [t [a | o]]; [| reflexivity].
  unfold bind. now rewrite E.
Qed.

Lemma bind_ret_l {A B : Type} (a : A) (k : A -> prog B) : bind (ret a) k = k a.
Proof. unfold bind, ret. now destruct (k a). Qed.

Lemma bind_ret_r {A : Type} (m : prog A) : bind m ret = m.
Proof.
  destruct m as [t [a | o]]; [| reflexivity].
  cbn. now rewrite app_nil_r.
Qed.

Lemma main_split (w : world) : main w = bind (acquire w) (finish w).
Proof.
  unfold main, acquire.
  repeat (rewrite bind_assoc; apply bind_ext; intros ?).
  now rewrite bind_ret_l.
Qed.

(** ** The runtime model on the texts the script meets *)

Example strip_attribute : strip ("0x8086" ++ nl) = "0x8086".
Proof. reflexivity. Qed.

Example split_lines :
  split_on newline ("a" ++ nl ++ "b c" ++ nl ++ nl ++ "d") = ["a"; "b c"; ""; "d"].
Proof. reflexivity. Qed.

Example split_words : split ("  0x0058:" ++ tab ++ tab ++ "fc ") = ["0x0058:"; "fc"].
Proof. reflexivity. Qed.

Example parse_dump : parse_val (ethtool_dump "fc") = ret "fc".
Proof. reflexivity. Qed.

Example parse_blank : parse_val (" " ++ nl) = halt (Uncaught IndexError).
Proof. reflexivity. Qed.

Example int16_accepts :
  map int16 ["fc"; "0xFC"; "-0x_f_f"; "+1f"; "0"; "0b1"]
  = [Some 252; Some 252; Some (-255); Some 31; Some 0; Some 177].
Proof. reflexivity. Qed.

Example int16_rejects :
  map int16 [""; "0x"; "_1"; "1_"; "1__2"; "g"; "0x-1"; "1 2"]
  = [None; None; None; None; None; None; None; None].
Proof. reflexivity. Qed.

(** [int] skips a new line around the number, not a file separator,
    which [str.strip] would take off. *)
Example int16_white_space :
  (int16 (" 1f" ++ nl), int16 (String (ascii_of_nat 28) "1"),
   strip (String (ascii_of_nat 28) "1"))
  = (Some 31, None, "1").
Proof. reflexivity. Qed.

Example hex_bin_print :
  (hex 253, hex 0, hex (-1), bin 253, bin 0, bin (-6))
  = ("0xfd", "0x0", "-0x1", "0b11111101", "0b0", "-0b110").
Proof. reflexivity. Qed.

Example str_in_is_substring :
  map (fun v => str_in v "0x8086") ["0x8086"; "8086"; ""; "0X8086"; "0x80860"; "86"]
  = [true; true; true; false; false; true].
Proof. reflexivity. Qed.

Example magic_of_x520 : magic "0x10fb" "0x8086" = "0x10fb8086".
Proof. reflexivity. Qed.

(** ** Bit 0 *)

Lemma bit0_cases (b : Z) : Z.land b 1 = 0 \/ Z.land b 1 = 1.
Proof.
  change 1 with (Z.ones 1) at 1 2. rewrite Z.land_ones by lia.
  change (2 ^ 1) with 2.
  pose proof (Z.mod_pos_bound b 2 ltac:(lia)). lia.
Qed.

Lemma policy_set (b : Z) :
  Z.land b 1 = 1 ->
  policy b =
    ([Print "Card is already unlocked for all SFP modules. Nothing to do."],
     Halt (Exit 1)).
Proof. intros H. unfold policy. now rewrite H. Qed.

Lemma policy_clear (b : Z) :
  Z.land b 1 = 0 ->
  policy b =
    ([Print "Card is locked to Intel only SFP modules. Patching EEPROM...";
      Print ("New EEPROM Value at 0x58 will be " ++ hex (Z.lor b 1)
             ++ " (" ++ bin (Z.lor b 1) ++ ")")],
     Val (Some (Z.lor b 1))).
Proof. intros H. unfold policy. now rewrite H. Qed.

(** ** Every way a run can go *)

Section Forward.

Variable w : world.
Variables (intf : string) (rest : list string).
Hypothesis Hargs : args w = intf :: rest.

Lemma acquire_no_vendor :
  read_file w (vendor_path intf) = inr IOError ->
  acquire w =
    ([Open (vendor_path intf); Print "Can't read interface data."],
     Halt (Exit 2)).
Proof.
  intros Hv. unfold acquire, get_intf, read_attr. rewrite Hargs.
  rewrite bind_ret_l, Hv. reflexivity.
Qed.

Lemma acquire_vendor_undecodable :
  read_file w (vendor_path intf) = inr DecodeError ->
  acquire w = ([Open (vendor_path intf)], Halt (Uncaught ValueError)).
Proof.
  intros Hv. unfold acquire, get_intf, read_attr. rewrite Hargs.
  rewrite bind_ret_l, Hv. reflexivity.
Qed.

Variable vt : string.
Hypothesis Hvendor : read_file w (vendor_path intf) = inl vt.

Lemma acquire_device_undecodable :
  read_file w (device_path intf) = inr DecodeError ->
  acquire w =
    ([Open (vendor_path intf); Open (device_path intf)],
     Halt (Uncaught ValueError)).
Proof.
  intros Hd. unfold acquire, get_intf, read_attr. rewrite Hargs.
  rewrite bind_ret_l, Hvendor, Hd. reflexivity.
Qed.

Lemma acquire_no_device :
  read_file w (device_path intf) = inr IOError ->
  acquire w =
    ([Open (vendor_path intf); Open (device_path intf);
      Print "Can't read interface data."],
     Halt (Exit 2)).
Proof.
  intros Hd. unfold acquire, get_intf, read_attr. rewrite Hargs.
  rewrite bind_ret_l, Hvendor, Hd. reflexivity.
Qed.

Variable dt : string.
Hypothesis Hdevice : read_file w (device_path intf) = inl dt.

Lemma acquire_unrecognized :
  recognized (strip vt) (strip dt) = false ->
  acquire w =
    ([Open (vendor_path intf); Open (device_path intf);
      Print "Not a recognized Intel x520 card."],
     Halt (Exit 3)).
Proof.
  intros Hr. unfold acquire, get_intf, read_attr, recognize. rewrite Hargs.
  rewrite bind_ret_l, Hvendor, Hdevice.
  unfold recognized in Hr. apply negb_false_iff in Hr.
  cbn [bind emit ret fst snd app]. rewrite Hr. reflexivity.
Qed.

Hypothesis Hrec : recognized (strip vt) (strip dt) = true.

Lemma acquire_recognized :
  acquire w =
    bind ([Open (vendor_path intf); Open (device_path intf)], Val tt)
      (fun _ =>
         output <- read_eeprom w intf ;;
         val <- parse_val output ;;
         val_bin <- parse_int val ;;
         ret {| r_intf := intf; r_vdr_id := strip vt; r_dev_id := strip dt;
                r_val := val; r_val_bin := val_bin |}).
Proof.
  unfold acquire, get_intf, read_attr, recognize. rewrite Hargs.
  rewrite bind_ret_l, Hvendor, Hdevice.
  unfold recognized in Hrec. apply negb_true_iff in Hrec.
  cbn [bind emit ret fst snd app]. rewrite Hrec.
  now destruct (bind (read_eeprom w intf) _).
Qed.

Lemma acquire_read_error (e : proc_error) :
  check_output w (read_argv intf) = inr e ->
  acquire w = (probe intf, Halt (Uncaught (ProcError e))).
Proof.
  intros Hc. rewrite acquire_recognized. unfold read_eeprom.
  rewrite Hc. reflexivity.
Qed.

Variable output : string.
Hypothesis Hcheck : check_output w (read_argv intf) = inl output.

Lemma acquire_no_token :
  snd (parse_val output) = Halt (Uncaught IndexError) ->
  acquire w = (probe intf, Halt (Uncaught IndexError)).
Proof.
  intros Hp. rewrite acquire_recognized. unfold read_eeprom.
  rewrite Hcheck. destruct (parse_val output) as [t r] eqn:E.
  cbn in Hp. subst r.
  assert (t = []) as ->.
  { unfold parse_val in E. repeat destruct (last_item _); now inversion E. }
  cbn [bind emit ret fst snd app]. rewrite E. reflexivity.
Qed.

Variable val : string.
Hypothesis Hval : parse_val output = ret val.

Lemma acquire_bad_hex :
  int16 val = None ->
  acquire w = (probe intf, Halt (Uncaught ValueError)).
Proof.
  intros Hi. rewrite acquire_recognized. unfold read_eeprom, parse_int.
  rewrite Hcheck. cbn [bind emit ret fst snd app]. rewrite Hval.
  cbn [bind emit ret fst snd app]. rewrite Hi. reflexivity.
Qed.

Lemma acquire_ok (b : Z) :
  int16 val = Some b ->
  acquire w =
    (probe intf,
     Val {| r_intf := intf; r_vdr_id := strip vt; r_dev_id := strip dt;
            r_val := val; r_val_bin := b |}).
Proof.
  intros Hi. rewrite acquire_recognized. unfold read_eeprom, parse_int.
  rewrite Hcheck. cbn [bind emit ret fst snd app]. rewrite Hval.
  cbn [bind emit ret fst snd app]. rewrite Hi. reflexivity.
Qed.

End Forward.

(** [parse_val] prints nothing, and fails only with [IndexError]. *)
Lemma parse_val_cases (output : string) :
  (exists val, parse_val output = ret val)
  \/ parse_val output = halt (Uncaught IndexError).
Proof.
  unfold parse_val. destruct (last_item (split_on _ _)); [| now right].
  destruct (last_item (split _)); [left; eauto | now right].
Qed.

Lemma acquire_usage (w : world) :
  args w = [] ->
  acquire w = ([Print (argv0 w ++ " <interface>")], Halt (Exit 255)).
Proof. intros H. unfold acquire, get_intf. now rewrite H. Qed.

Lemma acquire_spec (w : world) : Acquire w (acquire w).
Proof.
  destruct (args w) as [| intf rest] eqn:Hargs.
  { rewrite acquire_usage by assumption. now constructor. }
  destruct (read_file w (vendor_path intf)) as [vt | []] eqn:Hv.
  2: { erewrite acquire_no_vendor by eassumption. econstructor; eassumption. }
  2: { erewrite acquire_vendor_undecodable by eassumption.
       econstructor; eassumption. }
  destruct (read_file w (device_path intf)) as [dt | []] eqn:Hd.
  2: { erewrite acquire_no_device by eassumption. econstructor; eassumption. }
  2: { erewrite acquire_device_undecodable by eassumption.
       econstructor; eassumption. }
  destruct (recognized (strip vt) (strip dt)) eqn:Hr.
  2: { erewrite acquire_unrecognized by eassumption. econstructor; eassumption. }
  destruct (check_output w (read_argv intf)) as [output | e] eqn:Hc.
  2: { erewrite acquire_read_error by eassumption. econstructor; eassumption. }
  destruct (parse_val_cases output) as [[val Hp] | Hp].
  2: { erewrite acquire_no_token; try eassumption.
       - econstructor; eassumption.
       - now rewrite Hp. }
  destruct (int16 val) as [b |] eqn:Hi.
  - erewrite acquire_ok by eassumption. econstructor; eassumption.
  - erewrite acquire_bad_hex by eassumption. econstructor; eassumption.
Qed.

(** ** The second half, by the value of bit 0 *)

Lemma finish_set (w : world) (r : readout) :
  Z.land (r_val_bin r) 1 = 1 ->
  finish w r = (unlocked_tail r, Halt (Exit 1)).
Proof. intros H. unfold finish. now rewrite (policy_set _ H). Qed.

Lemma finish_clear (w : world) (r : readout) :
  Z.land (r_val_bin r) 1 = 0 ->
  finish w r = (patch_tail w r, Val tt).
Proof. intros H. unfold finish. now rewrite (policy_clear _ H). Qed.

Lemma run_halt (w : world) (t : list event) (o : outcome) :
  acquire w = (t, Halt o) -> run w = (t, o).
Proof. intros E. unfold run. now rewrite main_split, E. Qed.

Lemma run_unlocked (w : world) (t : list event) (r : readout) :
  acquire w = (t, Val r) ->
  Z.land (r_val_bin r) 1 = 1 ->
  run w = ((t ++ unlocked_tail r)%list, Exit 1).
Proof.
  intros E H. unfold run. rewrite main_split, E. unfold bind.
  now rewrite (finish_set _ _ H).
Qed.

Lemma run_patched (w : world) (t : list event) (r : readout) :
  acquire w = (t, Val r) ->
  Z.land (r_val_bin r) 1 = 0 ->
  run w = ((t ++ patch_tail w r)%list, Exit 0).
Proof.
  intros E H. unfold run. rewrite main_split, E. unfold bind.
  now rewrite (finish_clear _ _ H).
Qed.

(** A run that gets a value has done exactly the three reads. *)
Lemma acquire_val_probe (w : world) (t : list event) (r : readout) :
  acquire w = (t, Val r) -> t = probe (r_intf r).
Proof.
  intros E. pose proof (acquire_spec w) as A. rewrite E in A.
  inversion A; subst; reflexivity.
Qed.

Lemma acquire_snd_val (w : world) (r : readout) :
  snd (acquire w) = Val r -> acquire w = (probe (r_intf r), Val r).
Proof.
  destruct (acquire w) as [t x] eqn:E. cbn. intros ->.
  now rewrite (acquire_val_probe _ _ _ E).
Qed.

(** What a value of [acquire] says about the host. *)
Lemma acquire_val_inv (w : world) (r : readout) :
  snd (acquire w) = Val r ->
  exists rest vt dt output,
    args w = r_intf r :: rest
    /\ read_file w (vendor_path (r_intf r)) = inl vt
    /\ read_file w (device_path (r_intf r)) = inl dt
    /\ r_vdr_id r = strip vt /\ r_dev_id r = strip dt
    /\ recognized (r_vdr_id r) (r_dev_id r) = true
    /\ check_output w (read_argv (r_intf r)) = inl output
    /\ parse_val output = ret (r_val r)
    /\ int16 (r_val r) = Some (r_val_bin r).
Proof.
  intros E. apply acquire_snd_val in E.
  pose proof (acquire_spec w) as A. rewrite E in A.
  inversion A; subst; cbn. eauto 15.
Qed.

(** A run that stops in the first half has called no write, is not a
    success, and has not met an unbound name; when it stops before the
    EEPROM read it has called the accessor not at all. *)
Lemma acquire_halt_facts (w : world) (t : list event) (o : outcome) :
  acquire w = (t, Halt o) ->
  writes t = []
  /\ o <> Exit 0 /\ o <> Exit 1 /\ o <> Uncaught NameError
  /\ ((exists code, o = Exit code) -> accessor_calls t = []).
Proof.
  intros E. pose proof (acquire_spec w) as A. rewrite E in A.
  inversion A; subst; cbn;
    repeat split; try discriminate; try reflexivity;
    intros [code Hc]; discriminate.
Qed.

Lemma run_spec (w : world) : Run w (run w).
Proof.
  destruct (acquire w) as [t [r | o]] eqn:E.
  - pose proof (acquire_val_probe _ _ _ E) as ->.
    destruct (bit0_cases (r_val_bin r)) as [H | H].
    + rewrite (run_patched _ _ _ E H). now constructor.
    + rewrite (run_unlocked _ _ _ E H). now constructor.
  - rewrite (run_halt _ _ _ E). now constructor.
Qed.

Lemma run_shapes (w : world) :
  (exists t o, acquire w = (t, Halt o) /\ run w = (t, o))
  \/ (exists r,
        acquire w = (probe (r_intf r), Val r)
        /\ Z.land (r_val_bin r) 1 = 1
        /\ run w = ((probe (r_intf r) ++ unlocked_tail r)%list, Exit 1))
  \/ (exists r,
        acquire w = (probe (r_intf r), Val r)
        /\ Z.land (r_val_bin r) 1 = 0
        /\ run w = ((probe (r_intf r) ++ patch_tail w r)%list, Exit 0)).
Proof.
  pose proof (run_spec w) as R. inversion R as [t o A E | r A B E | r A B E].
  - left. eauto.
  - right; left. exists r. auto.
  - right; right. exists r. auto.
Qed.

Ltac run_cases w :=
  let rt := fresh "rt" in
  let ro := fresh "ro" in
  let rr := fresh "r" in
  let RA := fresh "RA" in
  let RB := fresh "RB" in
  let RE := fresh "RE" in
  destruct (run_shapes w)
    as [(rt & ro & RA & RE) | [(rr & RA & RB & RE) | (rr & RA & RB & RE)]];
  unfold trace, ending in *; rewrite RE in *; cbn [fst snd] in *.

(** ** The recognizer *)

Lemma tuple_in_devices (d : string) :
  tuple_in d ["0x10fb"; "0x154d"] = true <-> d = "0x10fb" \/ d = "0x154d".
Proof.
  unfold tuple_in. cbn [existsb]. rewrite !orb_true_iff, !String.eqb_eq.
  intuition discriminate.
Qed.

Lemma recognized_iff (v d : string) :
  recognized v d = true
  <-> str_in v "0x8086" = true /\ (d = "0x10fb" \/ d = "0x154d").
Proof.
  unfold recognized.
  rewrite negb_true_iff, orb_false_iff, !negb_false_iff.
  now rewrite tuple_in_devices.
Qed.

Lemma prefix_prefixes (v s : string) :
  String.prefix v s = true <-> In v (prefixes s).
Proof.
  revert v. induction s as [| c s IH]; intros [| a v]; cbn.
  - intuition.
  - intuition discriminate.
  - intuition.
  - rewrite in_map_iff. destruct (ascii_dec a c) as [-> | Hn].
    + rewrite IH. split.
      * intros Hin. right. now exists v.
      * intros [[=] | (x & [= <-] & Hin)]. exact Hin.
    + split; [discriminate |].
      intros [[=] | (x & [= <- _] & _)]. now elim Hn.
Qed.

Lemma str_in_substrings (v s : string) :
  str_in v s = true <-> In v (substrings s).
Proof.
  induction s as [| c s IH]; cbn [str_in substrings];
    rewrite orb_true_iff, in_app_iff, prefix_prefixes.
  - split; [intros [H | H]; [now left | discriminate] | intros [H | []]; now left].
  - now rewrite IH.
Qed.

Lemma prefixes_spec (v s : string) :
  In v (prefixes s) <-> exists b, s = v ++ b.
Proof.
  revert v. induction s as [| c s IH]; intros v; cbn [prefixes In].
  - split.
    + intros [<- | []]. now exists EmptyString.
    + intros [b H]. left. destruct v; [reflexivity | discriminate].
  - rewrite in_map_iff. split.
    + intros [<- | (x & <- & Hx)]; [now exists (String c s) |].
      apply IH in Hx as [b ->]. now exists b.
    + intros [b H]. destruct v as [| a v]; [now left | right].
      injection H as <- ->. exists v. split; [reflexivity |].
      apply IH. now exists b.
Qed.

Lemma substrings_spec (v s : string) :
  In v (substrings s) <-> exists a b, s = a ++ v ++ b.
Proof.
  induction s as [| c s IH]; cbn [substrings];
    rewrite in_app_iff, prefixes_spec.
  - split.
    + intros [[b H] | []]. now exists EmptyString, b.
    + intros (a & b & H). left. exists b.
      destruct a; [exact H | discriminate].
  - rewrite IH. split.
    + intros [[b H] | (a & b & ->)].
      * now exists EmptyString, b.
      * now exists (String c a), b.
    + intros (a & b & H). destruct a as [| x a].
      * left. now exists b.
      * right. injection H as _ ->. now exists a, b.
Qed.

(** The vendor strings that pass the vendor test are the substrings of
    "0x8086", the empty string among them. *)
Lemma recognized_vendor (v d : string) :
  recognized v d = true
  <-> In v (substrings "0x8086") /\ (d = "0x10fb" \/ d = "0x154d").
Proof. now rewrite recognized_iff, str_in_substrings. Qed.

(** ** The policy on bit 0 *)

(** C5: for every value [b] read at offset 0x58 the decision is
    AlreadyUnlocked if and only if [b AND 1 = 1], and NeedsPatch
    otherwise. *)
Theorem C5_decision_iff_bit0 (b : Z) :
  (decision b = Some AlreadyUnlocked <-> Z.land b 1 = 1)
  /\ (Z.land b 1 <> 1 -> decision b = Some NeedsPatch).
Proof.
  unfold decision.
  destruct (bit0_cases b) as [H | H].
  - rewrite (policy_clear _ H). cbn. split; [split |]; intros; try reflexivity;
      try discriminate; lia.
  - rewrite (policy_set _ H). cbn. split; [tauto | intros; contradiction].
Qed.

Lemma C5_decision_witness :
  decision 7 = Some AlreadyUnlocked /\ decision 252 = Some NeedsPatch.
Proof.
  split.
  - now apply (C5_decision_iff_bit0 7).
  - apply (C5_decision_iff_bit0 252). discriminate.
Defined.

Lemma lor_1_keeps_other_bits (b : Z) :
  Z.land (Z.lor b 1) 254 = Z.land b 254.
Proof. rewrite Z.land_lor_distr_l. cbn. apply Z.lor_0_r. Qed.

Lemma patch_clear (b : Z) : Z.land b 1 = 0 -> patch b = Some (Z.lor b 1).
Proof. intros H. unfold patch. now rewrite (policy_clear _ H). Qed.

Lemma patch_set (b : Z) : Z.land b 1 = 1 -> patch b = None.
Proof. intros H. unfold patch. now rewrite (policy_set _ H). Qed.

(** C6: for every value [b] with bit 0 clear, the patched value is
    [b OR 1], and the bits other than bit 0 are unchanged:
    [patch(b) AND 0b11111110 = b AND 0b11111110]. *)
Theorem C6_patch_sets_only_bit0 (b : Z) :
  Z.land b 1 = 0 ->
  patch b = Some (Z.lor b 1)
  /\ forall p, patch b = Some p -> Z.land p 254 = Z.land b 254.
Proof.
  intros H. rewrite (patch_clear _ H). split; [reflexivity |].
  intros p [= <-]. apply lor_1_keeps_other_bits.
Qed.

Lemma C6_patch_witness :
  Z.land 252 1 = 0
  /\ patch 252 = Some 253
  /\ Z.land 253 254 = Z.land 252 254.
Proof.
  split; [reflexivity |].
  destruct (C6_patch_sets_only_bit0 252 eq_refl) as [Hp Hk].
  split; [exact Hp | exact (Hk 253 Hp)].
Defined.

(** ** The write command *)

Lemma command_line_cmd_of (r : readout) :
  command_line (cmd_of r) =
    "ethtool -E " ++ r_intf r ++ " magic " ++ magic (r_dev_id r) (r_vdr_id r)
    ++ " offset 0x58 value " ++ hex (Z.lor (r_val_bin r) 1) ++ " length 1".
Proof. reflexivity. Qed.

(** The write events of a run that read [r]: none when bit 0 is set,
    one when it is clear. *)
Lemma writes_unlocked (r : readout) :
  writes (probe (r_intf r) ++ unlocked_tail r) = [].
Proof. reflexivity. Qed.

Lemma writes_patched (w : world) (r : readout) :
  writes (probe (r_intf r) ++ patch_tail w r) =
    [System (command_line (cmd_of r)) (os_system w (command_line (cmd_of r)))].
Proof. reflexivity. Qed.

Lemma in_writes (t : list event) (cmd : string) (st : Z) :
  In (System cmd st) t <-> In (System cmd st) (writes t).
Proof.
  unfold writes. rewrite filter_In. cbn. intuition.
Qed.

(** Every write event of every run is the command built from what the
    run read, with [new_val = val_bin | 1]. *)
Lemma write_event_inv (w : world) (cmd : string) (st : Z) :
  In (System cmd st) (trace w) ->
  exists r,
    acquire w = (probe (r_intf r), Val r)
    /\ Z.land (r_val_bin r) 1 = 0
    /\ cmd = command_line (cmd_of r)
    /\ st = os_system w cmd
    /\ run w = ((probe (r_intf r) ++ patch_tail w r)%list, Exit 0).
Proof.
  intros Hin. apply in_writes in Hin. run_cases w.
  - destruct (acquire_halt_facts _ _ _ RA) as [Hw _].
    rewrite Hw in Hin. contradiction.
  - rewrite writes_unlocked in Hin. contradiction.
  - rewrite writes_patched in Hin. destruct Hin as [[= <- <-] | []].
    exists r. auto.
Qed.

(** C7: for every value with bit 0 already set, the run issues no write
    command and ends with exit code 1. *)
Theorem C7_unlocked_no_write (w : world) (r : readout) :
  snd (acquire w) = Val r ->
  Z.land (r_val_bin r) 1 = 1 ->
  ending w = Exit 1
  /\ writes (trace w) = []
  /\ patch (r_val_bin r) = None.
Proof.
  intros E H. apply acquire_snd_val in E.
  unfold ending, trace. rewrite (run_unlocked _ _ _ E H). cbn [fst snd].
  repeat split. now apply patch_set.
Qed.

Lemma C7_unlocked_witness :
  Z.land 7 1 = 1
  /\ ending host_unlocked = Exit 1
  /\ writes (trace host_unlocked) = [].
Proof.
  split; [reflexivity |].
  pose proof (C7_unlocked_no_write host_unlocked
                {| r_intf := "eth4"; r_vdr_id := "0x8086";
                   r_dev_id := "0x154d"; r_val := "07"; r_val_bin := 7 |}
                eq_refl eq_refl) as [He [Hw _]].
  split; assumption.
Defined.

(** ** Failures before the patch *)








Lemma failure_stops (w : world) :
  Failure w -> exists t o, acquire w = (t, Halt o).
Proof.
  intros [Ha | intf rest Ha Hf | intf rest vt dt Ha Hv Hd Hr
          | intf rest vt dt Ha Hv Hd Hr Hc].
  - rewrite (acquire_usage _ Ha). eauto.
  - destruct (read_file w (vendor_path intf)) as [vt | []] eqn:Hv.
    + destruct Hf as [[e Hf] | [[] Hf]]; [discriminate | |].
      * rewrite (acquire_no_device w intf rest Ha vt Hv Hf). eauto.
      * rewrite (acquire_device_undecodable w intf rest Ha vt Hv Hf). eauto.
    + rewrite (acquire_no_vendor w intf rest Ha Hv). eauto.
    + rewrite (acquire_vendor_undecodable w intf rest Ha Hv). eauto.
  - rewrite (acquire_unrecognized w intf rest Ha vt Hv dt Hd Hr). eauto.
  - destruct Hc as [[e Hc] | (output & Hc & [Hp | (val & Hp & Hi)])].
    + rewrite (acquire_read_error w intf rest Ha vt Hv dt Hd Hr e Hc). eauto.
    + rewrite (acquire_no_token w intf rest Ha vt Hv dt Hd Hr output Hc Hp).
      eauto.
    + rewrite (acquire_bad_hex w intf rest Ha vt Hv dt Hd Hr output Hc val Hp Hi).
      eauto.
Qed.

(** ** The write comes last *)

(** A run that stops before the policy never writes the EEPROM; a run
    the guard rejects calls the accessor not at all; and a write, when
    there is one, is followed only by the last [print] of a run that
    ends with 0, with no other write before it. *)
Lemma failure_writes_nothing (w : world) :
  (Failure w -> writes (trace w) = [] /\ ending w <> Exit 0)
  /\ (forall intf rest vt dt,
        args w = intf :: rest ->
        read_file w (vendor_path intf) = inl vt ->
        read_file w (device_path intf) = inl dt ->
        recognized (strip vt) (strip dt) = false ->
        accessor_calls (trace w) = [])
  /\ (forall cmd st,
        In (System cmd st) (trace w) ->
        ending w = Exit 0
        /\ exists before,
             trace w =
               (before
                ++ [System cmd st;
                    Print "Reboot the machine for changes to take effect..."])%list
             /\ writes before = []).
Proof.
  split; [| split].
  - intros F. destruct (failure_stops _ F) as (t & o & A).
    unfold trace, ending. rewrite (run_halt _ _ _ A). cbn [fst snd].
    destruct (acquire_halt_facts _ _ _ A) as (Hw & H0 & _). now split.
  - intros intf rest vt dt Ha Hv Hd Hr. unfold trace.
    now rewrite (run_halt _ _ _
                   (acquire_unrecognized w intf rest Ha vt Hv dt Hd Hr)).
  - intros cmd st Hin.
    destruct (write_event_inv _ _ _ Hin) as (r & A & B & -> & -> & E).
    unfold ending, trace. rewrite E. cbn [fst snd]. split; [reflexivity |].
    exists (probe (r_intf r)
            ++ [Print (value_line r);
                Print "Card is locked to Intel only SFP modules. Patching EEPROM...";
                Print (new_value_line (Z.lor (r_val_bin r) 1));
                PrintRunning (cmd_of r)])%list.
    split; reflexivity.
Qed.

(** C4 on the code: a run with an unrecognized device does call the
    accessor.  The vendor string "8086" with device "0x10fb" is not on
    the allow-list, it passes the vendor test all the same (a substring
    test), and the run reads the EEPROM and writes it. *)
Theorem C4_unlisted_vendor_reaches_write :
  read_file host_bare_vendor (vendor_path "eth4") = inl ("8086" ++ nl)
  /\ strip ("8086" ++ nl) = "8086"
  /\ allow_listed "8086" "0x10fb" = false
  /\ accessor_calls (trace host_bare_vendor)
     = [CheckOutput ["ethtool"; "-e"; "eth4"; "offset"; "0x58"; "length"; "1"];
        System "ethtool -E eth4 magic 0x10fb86 offset 0x58 value 0xfd length 1"
               0]
  /\ ending host_bare_vendor = Exit 0.
Proof. repeat split. Qed.

(** ** [new_val] is bound when it is used *)

(** C9: for every parsed value exactly one of the two guards holds, so
    [policy] never goes on with [new_val] unbound: no run ends in
    [NameError], and every write command carries the value read with
    bit 0 set. *)
Theorem C9_new_val_defined (w : world) :
  (forall b, xorb (Z.land b 1 =? 1) (Z.land b 1 =? 0) = true)
  /\ (forall b, snd (policy b) <> Val None)
  /\ ending w <> Uncaught NameError
  /\ (forall cmd st,
        In (System cmd st) (trace w) ->
        exists r,
          snd (acquire w) = Val r
          /\ patch (r_val_bin r) = Some (Z.lor (r_val_bin r) 1)
          /\ cmd = command_line
                     (write_cmd (r_intf r) (magic (r_dev_id r) (r_vdr_id r))
                                (Z.lor (r_val_bin r) 1))).
Proof.
  split; [| split; [| split]].
  - intros b. destruct (bit0_cases b) as [-> | ->]; reflexivity.
  - intros b. destruct (bit0_cases b) as [H | H].
    + rewrite (policy_clear _ H). discriminate.
    + rewrite (policy_set _ H). discriminate.
  - run_cases w; try discriminate.
    now destruct (acquire_halt_facts _ _ _ RA) as (_ & _ & _ & H & _).
  - intros cmd st Hin.
    destruct (write_event_inv _ _ _ Hin) as (r & A & B & -> & _ & _).
    exists r. rewrite A. repeat split. now apply patch_clear.
Qed.

Lemma C9_new_val_witness :
  exists r,
    snd (acquire host_locked) = Val r
    /\ patch (r_val_bin r) = Some (Z.lor (r_val_bin r) 1)
    /\ "ethtool -E eth4 magic 0x10fb8086 offset 0x58 value 0x1 length 1"
       = command_line
           (write_cmd (r_intf r) (magic (r_dev_id r) (r_vdr_id r))
                      (Z.lor (r_val_bin r) 1)).
Proof.
  apply (proj2 (proj2 (proj2 (C9_new_val_defined host_locked))) _ 0).
  vm_compute. tauto.
Defined.

(** ** The magic token *)

(** C2, as the code has it: in every run that reaches the write with
    vendor id "0x8086" and device id "0x10fb", the magic token of the
    write command is "0x10fb8086": the device id as read, "0x" included,
    followed by the vendor id without its first two characters. *)
Theorem C2_magic_token (w : world) (r : readout) (cmd : string) (st : Z) :
  snd (acquire w) = Val r ->
  r_vdr_id r = "0x8086" ->
  r_dev_id r = "0x10fb" ->
  In (System cmd st) (trace w) ->
  magic (r_dev_id r) (r_vdr_id r) = "0x10fb8086"
  /\ cmd = "ethtool -E " ++ r_intf r ++ " magic 0x10fb8086 offset 0x58 value "
           ++ hex (Z.lor (r_val_bin r) 1) ++ " length 1".
Proof.
  intros E Hv Hd Hin.
  destruct (write_event_inv _ _ _ Hin) as (r' & A & _ & -> & _ & _).
  rewrite A in E. injection E as <-.
  rewrite command_line_cmd_of, Hv, Hd. split; reflexivity.
Qed.

Lemma C2_magic_witness :
  magic "0x10fb" "0x8086" = "0x10fb8086"
  /\ "ethtool -E eth4 magic 0x10fb8086 offset 0x58 value 0x1 length 1"
     = "ethtool -E " ++ "eth4" ++ " magic 0x10fb8086 offset 0x58 value "
       ++ hex (Z.lor 0 1) ++ " length 1".
Proof.
  apply (C2_magic_token host_locked
           {| r_intf := "eth4"; r_vdr_id := "0x8086"; r_dev_id := "0x10fb";
              r_val := "00"; r_val_bin := 0 |} _ 0);
    try reflexivity.
  vm_compute. tauto.
Defined.

(** C2 as the claim has it fails in scenario A: the run reaches the write
    with vendor id "0x8086" and device id "0x10fb", and the token on the
    command line is "0x10fb8086", which is not "10fb8086". *)
Lemma C2_magic_counterexample :
  snd (acquire host_locked)
  = Val {| r_intf := "eth4"; r_vdr_id := "0x8086"; r_dev_id := "0x10fb";
           r_val := "00"; r_val_bin := 0 |}
  /\ writes (trace host_locked)
     = [System "ethtool -E eth4 magic 0x10fb8086 offset 0x58 value 0x1 length 1" 0]
  /\ magic "0x10fb" "0x8086" = "0x10fb8086"
  /\ String.eqb (magic "0x10fb" "0x8086") "10fb8086" = false.
Proof. repeat split. Qed.

(** ** Exit codes and the accessor *)

(** C3, as the code has it: the run ends with 0 exactly when it has
    issued the write command, whatever status that command returned;
    a failing read (the command cannot be run, it returns non-zero, its
    output cannot be decoded, holds no token, or the token is not
    hexadecimal) ends the run with an exception nobody catches, before
    any write, and the status is then the interpreter's 1. *)
Theorem C3_exit_codes (w : world) :
  (ending w = Exit 0
   <-> exists cmd, writes (trace w) = [System cmd (os_system w cmd)])
  /\ (forall intf rest vt dt,
        args w = intf :: rest ->
        read_file w (vendor_path intf) = inl vt ->
        read_file w (device_path intf) = inl dt ->
        recognized (strip vt) (strip dt) = true ->
        (forall e,
           check_output w (read_argv intf) = inr e ->
           ending w = Uncaught (ProcError e))
        /\ (forall output,
              check_output w (read_argv intf) = inl output ->
              (snd (parse_val output) = Halt (Uncaught IndexError) ->
               ending w = Uncaught IndexError)
              /\ (forall val,
                    parse_val output = ret val ->
                    int16 val = None ->
                    ending w = Uncaught ValueError)))
  /\ (forall e,
        ending w = Uncaught e ->
        writes (trace w) = [] /\ exit_status (ending w) = 1).
Proof.
  split; [| split].
  - run_cases w.
    + destruct (acquire_halt_facts _ _ _ RA) as (Hw & H0 & _).
      rewrite Hw. split; [intros; contradiction | intros [cmd Hc]; discriminate].
    + rewrite writes_unlocked.
      split; [discriminate | intros [cmd Hc]; discriminate].
    + rewrite writes_patched. split; [eauto | reflexivity].
  - intros intf rest vt dt Ha Hv Hd Hr. unfold ending. split.
    + intros e Hc.
      now rewrite (run_halt _ _ _
                     (acquire_read_error w intf rest Ha vt Hv dt Hd Hr e Hc)).
    + intros output Hc. split.
      * intros Hp.
        now rewrite (run_halt _ _ _
                       (acquire_no_token w intf rest Ha vt Hv dt Hd Hr
                          output Hc Hp)).
      * intros val Hp Hi.
        now rewrite (run_halt _ _ _
                       (acquire_bad_hex w intf rest Ha vt Hv dt Hd Hr
                          output Hc val Hp Hi)).
  - intros e He. run_cases w; try discriminate.
    destruct (acquire_halt_facts _ _ _ RA) as (Hw & _).
    rewrite He. now split.
Qed.

Lemma C3_exit_codes_witness :
  ending host_write_fails = Exit 0
  /\ ending host_read_fails = Uncaught (ProcError (CalledProcessError 75)).
Proof.
  split.
  - apply (proj1 (C3_exit_codes host_write_fails)).
    now exists "ethtool -E eth4 magic 0x10fb8086 offset 0x58 value 0x1 length 1".
  - exact (proj1 (proj1 (proj2 (C3_exit_codes host_read_fails))
                    "eth4" [] ("0x8086" ++ nl) ("0x10fb" ++ nl)
                    eq_refl eq_refl eq_refl eq_refl)
             (CalledProcessError 75) eq_refl).
Defined.

(** C3 as the claim has it fails where the write command fails: the
    command returns 256 and the run still ends with 0.  And where the
    read command fails with 75, the status is 1, that of the
    already-unlocked exit. *)
Lemma C3_exit_codes_counterexample :
  writes (trace host_write_fails)
  = [System "ethtool -E eth4 magic 0x10fb8086 offset 0x58 value 0x1 length 1"
            256]
  /\ ending host_write_fails = Exit 0
  /\ exit_status (ending host_read_fails) = 1
  /\ exit_status (ending host_unlocked) = 1.
Proof. repeat split. Qed.

(** ** Values wider than a byte *)

Lemma lor_1_succ (b : Z) : Z.land b 1 = 0 -> Z.lor b 1 = b + 1.
Proof.
  intros H. rewrite (Z.add_nocarry_lxor _ _ H). symmetry.
  now apply Z.lxor_lor.
Qed.

(** C10, as the code has it: when the last token of the last line of the
    read output parses as a hexadecimal integer above 0xFF with bit 0
    clear, the run does not reject it: it computes value OR 1, still
    above 0xFF, and passes it to the write command. *)
Theorem C10_no_range_check
    (w : world) (intf : string) (rest : list string)
    (vt dt output val : string) (b : Z) :
  args w = intf :: rest ->
  read_file w (vendor_path intf) = inl vt ->
  read_file w (device_path intf) = inl dt ->
  recognized (strip vt) (strip dt) = true ->
  check_output w (read_argv intf) = inl output ->
  parse_val output = ret val ->
  int16 val = Some b ->
  255 < b ->
  Z.land b 1 = 0 ->
  let cmd :=
    "ethtool -E " ++ intf ++ " magic " ++ magic (strip dt) (strip vt)
    ++ " offset 0x58 value " ++ hex (Z.lor b 1) ++ " length 1" in
  ending w = Exit 0
  /\ writes (trace w) = [System cmd (os_system w cmd)]
  /\ 255 < Z.lor b 1.
Proof.
  intros Ha Hv Hd Hr Hc Hp Hi Hb H0 cmd.
  pose proof (acquire_ok w intf rest Ha vt Hv dt Hd Hr output Hc val Hp b Hi) as A.
  unfold ending, trace. rewrite (run_patched _ _ _ A H0). cbn [fst snd].
  split; [reflexivity | split; [reflexivity |]].
  rewrite (lor_1_succ _ H0). lia.
Qed.

Lemma C10_no_range_check_witness :
  ending host_wide_even = Exit 0
  /\ writes (trace host_wide_even)
     = [System "ethtool -E eth4 magic 0x10fb8086 offset 0x58 value 0x101 length 1"
               0]
  /\ 255 < Z.lor 256 1.
Proof.
  exact (C10_no_range_check host_wide_even "eth4" []
           ("0x8086" ++ nl) ("0x10fb" ++ nl) (ethtool_dump "100") "100" 256
           eq_refl eq_refl eq_refl eq_refl eq_refl eq_refl eq_refl
           eq_refl eq_refl).
Defined.

(** C10 as the claim has it fails on an odd value: the token "101"
    parses as 257, above 0xFF, and the run leaves with 1 without
    computing a new value or calling the write command. *)
Lemma C10_odd_value_counterexample :
  snd (acquire host_wide_odd)
  = Val {| r_intf := "eth4"; r_vdr_id := "0x8086"; r_dev_id := "0x10fb";
           r_val := "101"; r_val_bin := 257 |}
  /\ (255 <? 257) = true
  /\ patch 257 = None
  /\ ending host_wide_odd = Exit 1
  /\ writes (trace host_wide_odd) = [].
Proof. repeat split. Qed.

(** ** The vendor test *)

(** The code accepts everything on the allow-list. *)
Lemma allow_listed_recognized (v d : string) :
  allow_listed v d = true -> recognized v d = true.
Proof.
  unfold allow_listed. rewrite andb_true_iff, orb_true_iff, !String.eqb_eq.
  intros [-> Hd]. apply recognized_iff. split; [reflexivity | exact Hd].
Qed.

(** The device id is tested exactly. *)
Lemma recognized_device (v d : string) :
  recognized v d = true -> d = "0x10fb" \/ d = "0x154d".
Proof. intros H. now apply recognized_iff in H. Qed.

(** C1 on the code: the vendor test is a substring test, so the vendor
    string "8086", which is not on the allow-list, passes it; the run
    goes on to write the EEPROM, with a magic token built from it. *)
Theorem C1_vendor_substring_accepted :
  allow_listed "8086" "0x10fb" = false
  /\ recognized "8086" "0x10fb" = true
  /\ recognized "" "0x154d" = true
  /\ ending host_bare_vendor = Exit 0
  /\ writes (trace host_bare_vendor)
     = [System "ethtool -E eth4 magic 0x10fb86 offset 0x58 value 0xfd length 1"
               0].
Proof. repeat split. Qed.


(** ** The token the script parses *)

Lemma split_cons (c : ascii) (s : string) :
  split (String c s) =
    if is_space c then split s
    else String c (fst (split_go s)) :: snd (split_go s).
Proof.
  unfold split. cbn [split_go]. destruct (split_go s) as [w ws].
  destruct (is_space c); reflexivity.
Qed.

Lemma split_lstrip (s : string) : split (lstrip s) = split s.
Proof.
  induction s as [| c s IH]; [reflexivity |].
  cbn [lstrip]. rewrite split_cons.
  destruct (is_space c) eqn:E; [exact IH |].
  now rewrite split_cons, E.
Qed.

Lemma rstrip_split_go (s : string) :
  (rstrip s = EmptyString /\ split_go s = (EmptyString, []))
  \/ (rstrip s <> EmptyString /\ split_go (rstrip s) = split_go s).
Proof.
  induction s as [| c s IH]; [now left |].
  cbn [rstrip split_go]. destruct IH as [[R G] | [R G]].
  - rewrite R, G. destruct (is_space c) eqn:E.
    + now left.
    + right. split; [discriminate |]. cbn. now rewrite E.
  - destruct (rstrip s) as [| a r] eqn:RS; [contradiction |].
    right. split; [discriminate |]. cbn [split_go] in *. now rewrite G.
Qed.

Lemma split_rstrip (s : string) : split (rstrip s) = split s.
Proof.
  unfold split. destruct (rstrip_split_go s) as [[R G] | [R G]].
  - now rewrite R, G.
  - now rewrite G.
Qed.

Lemma split_strip (s : string) : split (strip s) = split s.
Proof. unfold strip. now rewrite split_rstrip, split_lstrip. Qed.

Lemma split_blank (s : string) : split s = [] <-> blank s = true.
Proof.
  induction s as [| c s IH]; [now split |].
  rewrite split_cons. unfold blank in *. cbn [all_chars].
  destruct (is_space c); cbn [andb]; [exact IH | split; discriminate].
Qed.

Lemma split_on_nonempty (sep : ascii) (s : string) : split_on sep s <> [].
Proof.
  destruct s as [| c s]; cbn; [discriminate |].
  destruct (Ascii.eqb c sep); [discriminate |].
  destruct (split_on sep s); discriminate.
Qed.

Lemma split_on_single (sep : ascii) (s h : string) :
  split_on sep s = [h] -> h = s.
Proof.
  revert h. induction s as [| c s IH]; intros h; cbn.
  - now intros [= <-].
  - destruct (Ascii.eqb c sep).
    + intros [= _ H]. now destruct (split_on_nonempty sep s).
    + destruct (split_on sep s) as [| h' t] eqn:E.
      * now destruct (split_on_nonempty sep s).
      * intros [= <- ->]. now rewrite (IH h' eq_refl).
Qed.

Lemma last_item_cons {A : Type} (x : A) (xs : list A) :
  xs <> [] -> last_item (x :: xs) = last_item xs.
Proof. destruct xs; [contradiction | reflexivity]. Qed.

Lemma last_item_none {A : Type} (xs : list A) : last_item xs = None <-> xs = [].
Proof.
  induction xs as [| x xs IH]; [now split |].
  split; [| discriminate]. destruct xs as [| y ys]; [discriminate |].
  intros H. apply IH in H. discriminate.
Qed.

Lemma last_item_cons_word (w : string) (ws : list string) :
  ws <> [] -> last_item (cons_word w ws) = last_item ws.
Proof.
  intros H. destruct w; [reflexivity |]. now apply last_item_cons.
Qed.

Lemma last_item_split_on (s : string) :
  last_item (split_on newline s) = Some (last_line s).
Proof.
  unfold last_line. destruct (last_item (split_on newline s)) eqn:E;
    [reflexivity |].
  apply last_item_none in E. now destruct (split_on_nonempty newline s).
Qed.

(** The last line of a text, by its first character. *)
Lemma last_line_cons (c : ascii) (s : string) :
  last_line (String c s) =
    if Ascii.eqb c newline then last_line s
    else match split_on newline s with
         | [_] => String c s
         | _ => last_line s
         end.
Proof.
  unfold last_line. cbn [split_on]. destruct (Ascii.eqb c newline).
  - now rewrite last_item_cons by apply split_on_nonempty.
  - destruct (split_on newline s) as [| h [| h' t]] eqn:E.
    + now destruct (split_on_nonempty newline s).
    + cbn. now rewrite (split_on_single _ _ _ E).
    + reflexivity.
Qed.

Lemma newline_is_space : is_space newline = true.
Proof. reflexivity. Qed.

Lemma eqb_newline_space (c : ascii) :
  Ascii.eqb c newline = true -> is_space c = true.
Proof. intros H. apply Ascii.eqb_eq in H. now subst. Qed.

(** When the last line holds a word, the last word of the text is the
    last word of that line; and when the text has several lines, that
    word is not the one the text starts with. *)
Lemma last_word_of_last_line (s : string) :
  split (last_line s) <> [] ->
  last_item (split s) = last_item (split (last_line s))
  /\ ((forall h, split_on newline s <> [h]) ->
      last_item (snd (split_go s)) = last_item (split (last_line s))).
Proof.
  induction s as [| c s IH]; intros Hl.
  - now destruct Hl.
  - rewrite last_line_cons in Hl |- *.
    destruct (Ascii.eqb c newline) eqn:Ec.
    + destruct (IH Hl) as [IH1 _].
      assert (split (String c s) = split s) as Es
          by now rewrite split_cons, (eqb_newline_space _ Ec).
      split; [now rewrite Es |].
      intros _. rewrite <- IH1. cbn [split_go].
      destruct (split_go s) as [w ws] eqn:G.
      rewrite (eqb_newline_space _ Ec). cbn [snd].
      unfold split. now rewrite G.
    + destruct (split_on newline s) as [| h [| h' t]] eqn:E.
      * now destruct (split_on_nonempty newline s).
      * split; [reflexivity |].
        intros H. exfalso. apply (H (String c h)).
        cbn [split_on]. now rewrite Ec, E.
      * destruct (IH Hl) as [_ IH2].
        specialize (IH2 ltac:(discriminate)).
        assert (snd (split_go s) <> []) as Hws.
        { intros Hn. rewrite Hn in IH2. cbn in IH2. symmetry in IH2.
          now apply last_item_none in IH2. }
        assert (last_item (snd (split_go (String c s)))
                = last_item (split (last_line s))) as Hs.
        { cbn [split_go]. destruct (split_go s) as [w ws]. cbn [snd] in *.
          destruct (is_space c); cbn [snd]; [| exact IH2].
          now rewrite last_item_cons_word. }
        split; [| intros _; exact Hs].
        rewrite <- Hs. unfold split.
        destruct (split_go (String c s)) as [w' ws'] eqn:G'. cbn [snd] in *.
        apply last_item_cons_word. intros Hn. rewrite Hn in Hs. cbn in Hs.
        symmetry in Hs. apply last_item_none in Hs. now apply Hl.
Qed.

Lemma split_cons_nonempty (c : ascii) (s : string) :
  split s <> [] -> split (String c s) <> [].
Proof.
  intros H. rewrite split_cons. destruct (is_space c); [exact H | discriminate].
Qed.

(** A text without trailing white space is empty or ends in a line that
    holds a word. *)
Lemma rstrip_last_line (u : string) :
  rstrip u = EmptyString \/ split (last_line (rstrip u)) <> [].
Proof.
  induction u as [| c u IH]; [now left |].
  cbn [rstrip]. destruct (rstrip u) as [| a r] eqn:R.
  - destruct (is_space c) eqn:E; [now left | right].
    rewrite last_line_cons. destruct (Ascii.eqb c newline) eqn:Ec.
    + apply eqb_newline_space in Ec. congruence.
    + cbn. rewrite split_cons, E. discriminate.
  - right. destruct IH as [IH | IH]; [discriminate |].
    rewrite last_line_cons. destruct (Ascii.eqb c newline); [exact IH |].
    destruct (split_on newline (String a r)) as [| h [| h' t]] eqn:E;
      try exact IH.
    apply split_cons_nonempty.
    unfold last_line in IH. rewrite E in IH. cbn in IH.
    now rewrite <- (split_on_single _ _ _ E).
Qed.

(** The last word of the last line of the stripped text is the last word
    of the text. *)
Lemma last_word_strip_line (output : string) :
  last_item (split (last_line (strip output))) = last_item (split output).
Proof.
  rewrite <- (split_strip output).
  destruct (rstrip_last_line (lstrip output)) as [R | R];
    fold (strip output) in R.
  - now rewrite R.
  - now destruct (last_word_of_last_line _ R) as [<- _].
Qed.

(** X1: the token the script parses is the last white-space-delimited
    word of the whole read output; the [strip] and the split into lines
    change nothing, and there is an [IndexError] exactly when the output
    holds no word. *)
Theorem X1_parse_val_last_word (output : string) :
  parse_val output =
    match last_item (split output) with
    | Some val => ret val
    | None => halt (Uncaught IndexError)
    end.
Proof.
  unfold parse_val.
  now rewrite last_item_split_on, last_word_strip_line.
Qed.

Lemma split_go_solid (s : string) :
  solid (fst (split_go s)) = true
  /\ Forall (fun w => w <> EmptyString /\ solid w = true) (snd (split_go s)).
Proof.
  induction s as [| c s [IH1 IH2]]; [now split |].
  cbn [split_go]. destruct (split_go s) as [w ws]. cbn [fst snd] in *.
  destruct (is_space c) eqn:E; cbn [fst snd].
  - split; [reflexivity |].
    destruct w; [exact IH2 |]. constructor; [| exact IH2].
    split; [discriminate | exact IH1].
  - split; [| exact IH2]. unfold solid in *. cbn [all_chars].
    now rewrite E, IH1.
Qed.

Lemma split_solid (s : string) :
  Forall (fun w => w <> EmptyString /\ solid w = true) (split s).
Proof.
  pose proof (split_go_solid s) as [H1 H2]. unfold split.
  destruct (split_go s) as [w ws]. cbn [fst snd] in *.
  destruct w; [exact H2 |]. constructor; [| exact H2].
  split; [discriminate | exact H1].
Qed.

Lemma last_item_in {A : Type} (xs : list A) (x : A) :
  last_item xs = Some x -> In x xs.
Proof.
  induction xs as [| y [| z zs] IH]; [discriminate | |].
  - intros [= ->]. now left.
  - intros H. right. now apply IH.
Qed.

(** X2: the parse of the read output fails with [IndexError] exactly when
    the output is blank (empty or white space only); when it succeeds
    the token is one of the words of the output, not empty and free of
    white space. *)
Theorem X2_parse_val_token (output : string) :
  (parse_val output = halt (Uncaught IndexError) <-> blank output = true)
  /\ (forall val,
        parse_val output = ret val ->
        In val (split output) /\ val <> EmptyString /\ solid val = true).
Proof.
  unfold parse_val. rewrite last_item_split_on, last_word_strip_line. split.
  - rewrite <- split_blank, <- last_item_none.
    destruct (last_item (split output)); split; intros H;
      try reflexivity; discriminate.
  - intros val H. destruct (last_item (split output)) as [v |] eqn:E;
      [| discriminate].
    injection H as ->. apply last_item_in in E. split; [exact E |].
    pose proof (split_solid output) as F. rewrite Forall_forall in F.
    now apply F.
Qed.

(** ** Numbers printed by [hex] and read by [int(., 16)] *)

Lemma lstrip_solid (s : string) : solid s = true -> lstrip s = s.
Proof.
  destruct s as [| c s]; [reflexivity |]. unfold solid. cbn.
  now destruct (is_space c).
Qed.

Lemma rstrip_solid (s : string) : solid s = true -> rstrip s = s.
Proof.
  unfold solid. induction s as [| c s IH]; [reflexivity |].
  cbn [all_chars rstrip]. intros H. apply andb_true_iff in H as [Hc Hs].
  rewrite (IH Hs). destruct s; [| reflexivity].
  now destruct (is_space c).
Qed.

Lemma strip_solid (s : string) : solid s = true -> strip s = s.
Proof.
  intros H. unfold strip. rewrite (lstrip_solid _ H). now apply rstrip_solid.
Qed.

Lemma int_space_is_space (c : ascii) :
  is_int_space c = true -> is_space c = true.
Proof.
  destruct c as [[] [] [] [] [] [] [] []]; vm_compute; intros H;
    first [reflexivity | discriminate H].
Qed.

Lemma not_space_not_int_space (c : ascii) :
  is_space c = false -> is_int_space c = false.
Proof.
  intros H. destruct (is_int_space c) eqn:E; [| reflexivity].
  apply int_space_is_space in E. congruence.
Qed.

(** [int] skips nothing of a text without white space. *)
Lemma int_strip_solid (s : string) : solid s = true -> int_strip s = s.
Proof.
  intros H. unfold int_strip.
  assert (int_lstrip s = s) as ->.
  { destruct s as [| c s]; [reflexivity |]. unfold solid in H. cbn in H |- *.
    apply andb_true_iff in H as [Hc _]. apply negb_true_iff in Hc.
    now rewrite (not_space_not_int_space _ Hc). }
  unfold solid in H. induction s as [| c s IH]; [reflexivity |].
  cbn [all_chars int_rstrip] in *. apply andb_true_iff in H as [Hc Hs].
  rewrite (IH Hs). destruct s; [| reflexivity].
  apply negb_true_iff in Hc. now rewrite (not_space_not_int_space _ Hc).
Qed.

Lemma string_of_uint_solid (d : Hexadecimal.uint) :
  solid (HexadecimalString.NilEmpty.string_of_uint d) = true.
Proof. induction d; cbn; try reflexivity; exact IHd. Qed.

Lemma scan16_string_of_uint (d : Hexadecimal.uint) (acc : Z) :
  scan16 (HexadecimalString.NilEmpty.string_of_uint d) false acc
  = Some (uint_value d acc).
Proof.
  revert acc. induction d; intros acc;
    cbn [HexadecimalString.NilEmpty.string_of_uint scan16 uint_value];
    try reflexivity; exact (IHd _).
Qed.

Lemma of_hex_uint_acc_value (d : Hexadecimal.uint) (p : positive) :
  Z.pos (Pos.of_hex_uint_acc d p) = uint_value d (Z.pos p).
Proof.
  revert p. induction d; intros p; cbn [Pos.of_hex_uint_acc uint_value];
    try reflexivity; rewrite IHd; f_equal; lia.
Qed.

Lemma of_hex_uint_value (d : Hexadecimal.uint) :
  Z.of_N (Pos.of_hex_uint d) = uint_value d 0.
Proof.
  induction d; cbn [Pos.of_hex_uint uint_value Z.of_N];
    try reflexivity; try exact IHd; apply of_hex_uint_acc_value.
Qed.

Lemma to_hex_uint_nonnil (m : N) : N.to_hex_uint m <> Hexadecimal.Nil.
Proof.
  destruct m; cbn; [discriminate |].
  apply HexadecimalPos.Unsigned.to_uint_nonnil.
Qed.

(** The digits of a number are read back as the number, with or without
    the ["0x"] in front. *)
Lemma digits16_to_hex (m : N) :
  let body := HexadecimalString.NilZero.string_of_uint (N.to_hex_uint m) in
  solid body = true
  /\ digits16 body = Some (Z.of_N m)
  /\ unprefix16 (String "0" (String "x" body)) = body.
Proof.
  cbn zeta. pose proof (to_hex_uint_nonnil m) as Hn.
  pose proof (HexadecimalN.Unsigned.of_to m) as Hm.
  unfold N.of_hex_uint in Hm.
  assert (uint_value (N.to_hex_uint m) 0 = Z.of_N m) as Hv
      by now rewrite <- of_hex_uint_value, Hm.
  clear Hm. revert Hn Hv. generalize (N.to_hex_uint m). intros d Hn Hv.
  assert (HexadecimalString.NilZero.string_of_uint d
          = HexadecimalString.NilEmpty.string_of_uint d) as ->
      by (destruct d; [contradiction | reflexivity ..]).
  split; [apply string_of_uint_solid |].
  rewrite <- Hv, <- scan16_string_of_uint.
  destruct d; [contradiction | split; reflexivity ..].
Qed.

(** X3: what [hex] prints, [int(., 16)] reads back: for every integer
    [n], negative ones included, [int(hex(n), 16) = n]. *)
Theorem X3_int16_hex (n : Z) : int16 (hex n) = Some n.
Proof.
  destruct (digits16_to_hex (Z.abs_N n)) as (Hs & Hd & Hu).
  unfold hex, sign_of. destruct (n <? 0) eqn:E.
  - unfold int16. rewrite int_strip_solid by (cbn; exact Hs).
    cbn [append]. rewrite Hu, Hd. cbn [option_map]. f_equal.
    apply Z.ltb_lt in E. rewrite N2Z.inj_abs_N. lia.
  - unfold int16. rewrite int_strip_solid by (cbn; exact Hs).
    cbn [append]. rewrite Hu, Hd. f_equal.
    apply Z.ltb_ge in E. rewrite N2Z.inj_abs_N. lia.
Qed.

(** ** The magic token as a number *)

Lemma hex_digit_range (c : ascii) (d : Z) :
  hex_digit c = Some d -> 0 <= d < 16.
Proof.
  unfold hex_digit. cbn zeta. generalize (Z.of_N (N_of_ascii c)). intros n.
  repeat match goal with
         | |- context [if ?b then _ else _] => destruct b eqn:?
         end; intros [= <-]; lia.
Qed.

Lemma hex_not_underscore (c : ascii) :
  is_hex c = true -> Ascii.eqb c "_" = false.
Proof.
  intros H. destruct (Ascii.eqb c "_") eqn:E; [| reflexivity].
  apply Ascii.eqb_eq in E. subst. discriminate.
Qed.

Lemma hex_not_space (c : ascii) : is_hex c = true -> is_space c = false.
Proof.
  destruct c as [[] [] [] [] [] [] [] []]; vm_compute; intros H;
    first [reflexivity | discriminate H].
Qed.

Lemma all_chars_app (p : ascii -> bool) (a b : string) :
  all_chars p (a ++ b) = all_chars p a && all_chars p b.
Proof.
  induction a as [| c a IH]; [reflexivity |].
  cbn. now rewrite IH, andb_assoc.
Qed.

Lemma hex_solid (s : string) : all_chars is_hex s = true -> solid s = true.
Proof.
  unfold solid. induction s as [| c s IH]; [reflexivity |].
  cbn. intros H. apply andb_true_iff in H as [Hc Hs].
  now rewrite (hex_not_space _ Hc), (IH Hs).
Qed.

Lemma scan16_digits (s : string) (acc : Z) :
  all_chars is_hex s = true -> scan16 s false acc = Some (hex_value s acc).
Proof.
  revert acc. induction s as [| c s IH]; intros acc; [reflexivity |].
  cbn [all_chars scan16 hex_value]. intros H.
  apply andb_true_iff in H as [Hc Hs].
  rewrite (hex_not_underscore _ Hc). unfold is_hex in Hc.
  destruct (hex_digit c); [now apply IH | discriminate].
Qed.

Lemma hex_value_app (a b : string) (acc : Z) :
  all_chars is_hex a = true ->
  hex_value (a ++ b) acc = hex_value b (hex_value a acc).
Proof.
  revert acc. induction a as [| c a IH]; intros acc; [reflexivity |].
  cbn [all_chars append hex_value]. intros H.
  apply andb_true_iff in H as [Hc Ha]. unfold is_hex in Hc.
  destruct (hex_digit c); [now apply IH | discriminate].
Qed.

Lemma hex_value_shift (s : string) (acc : Z) :
  all_chars is_hex s = true ->
  hex_value s acc = acc * 16 ^ Z.of_nat (String.length s) + hex_value s 0.
Proof.
  revert acc. induction s as [| c s IH]; intros acc.
  - cbn. lia.
  - cbn [all_chars hex_value String.length]. intros H.
    apply andb_true_iff in H as [Hc Hs]. unfold is_hex in Hc.
    destruct (hex_digit c) as [d |]; [| discriminate].
    rewrite (IH (16 * acc + d) Hs), (IH (16 * 0 + d) Hs).
    rewrite Nat2Z.inj_succ, Z.pow_succ_r by lia. ring.
Qed.

Lemma hex_value_bound (s : string) :
  all_chars is_hex s = true ->
  0 <= hex_value s 0 < 16 ^ Z.of_nat (String.length s).
Proof.
  induction s as [| c s IH]; [cbn; lia |].
  cbn [all_chars hex_value String.length]. intros H.
  apply andb_true_iff in H as [Hc Hs]. unfold is_hex in Hc.
  destruct (hex_digit c) as [d |] eqn:Ed; [| discriminate].
  apply hex_digit_range in Ed. specialize (IH Hs).
  rewrite (hex_value_shift _ _ Hs).
  rewrite Nat2Z.inj_succ, Z.pow_succ_r by lia. nia.
Qed.

Lemma unprefix16_0x (s : string) :
  match s with
  | EmptyString => True
  | String c _ => Ascii.eqb c "_" = false
  end ->
  unprefix16 (String "0" (String "x" s)) = s.
Proof.
  destruct s as [| c r]; [reflexivity |].
  destruct c as [[] [] [] [] [] [] [] []]; intros H;
    try reflexivity; discriminate H.
Qed.

(** An id in the form of the attribute files, ["0x"] and hexadecimal
    digits, is read as the number the digits denote. *)
Lemma int16_0x (g : string) :
  g <> EmptyString ->
  all_chars is_hex g = true ->
  int16 ("0x" ++ g) = Some (hex_value g 0).
Proof.
  intros Hne Hg. unfold int16.
  rewrite int_strip_solid by (cbn; now apply hex_solid).
  cbn [append]. destruct g as [| c r]; [contradiction |].
  assert (Ascii.eqb c "_" = false) as Hc.
  { apply hex_not_underscore. cbn in Hg. now apply andb_true_iff in Hg. }
  rewrite unprefix16_0x by exact Hc.
  unfold digits16. rewrite Hc. now apply scan16_digits.
Qed.

(** X4: for a device id and a vendor id in the form of the attribute
    files (["0x"] and hexadecimal digits, four of them for the vendor),
    the magic token is ["0x"], the device digits, the vendor digits, and
    read as a number it is [device * 2^16 + vendor] with
    [vendor < 2^16]: the device id in the high half, the vendor id in the
    low half. *)
Theorem X4_magic_value (g h : string) :
  g <> EmptyString ->
  all_chars is_hex g = true ->
  all_chars is_hex h = true ->
  String.length h = 4%nat ->
  magic ("0x" ++ g) ("0x" ++ h) = "0x" ++ g ++ h
  /\ int16 ("0x" ++ g) = Some (hex_value g 0)
  /\ int16 ("0x" ++ h) = Some (hex_value h 0)
  /\ 0 <= hex_value h 0 < 65536
  /\ int16 (magic ("0x" ++ g) ("0x" ++ h))
     = Some (hex_value g 0 * 65536 + hex_value h 0).
Proof.
  intros Hne Hg Hh Hl.
  assert (magic ("0x" ++ g) ("0x" ++ h) = "0x" ++ g ++ h) as Hm by reflexivity.
  assert (h <> EmptyString) as Hhne by (intros ->; discriminate).
  pose proof (hex_value_bound _ Hh) as Hb. rewrite Hl in Hb.
  change (16 ^ Z.of_nat 4) with 65536 in Hb.
  repeat split; try lia; try (now apply int16_0x).
  rewrite Hm, int16_0x.
  - rewrite (hex_value_app _ _ _ Hg), (hex_value_shift _ _ Hh), Hl.
    reflexivity.
  - destruct g; [contradiction | discriminate].
  - now rewrite all_chars_app, Hg, Hh.
Qed.

Lemma X4_magic_value_witness :
  magic "0x10fb" "0x8086" = "0x10fb8086"
  /\ int16 "0x10fb" = Some 4347
  /\ int16 "0x8086" = Some 32902
  /\ 0 <= 32902 < 65536
  /\ int16 (magic "0x10fb" "0x8086") = Some (4347 * 65536 + 32902).
Proof.
  apply (X4_magic_value "10fb" "8086"); [discriminate | reflexivity ..].
Defined.

(** ** What the recognizer accepts *)

(** X5: the recognizer as the code has it accepts a pair exactly when
    the vendor string occurs somewhere inside "0x8086" (the empty string
    does) and the device string is "0x10fb" or "0x154d". *)
Theorem X5_recognized_exactly (v d : string) :
  recognized v d = true
  <-> (exists a b, "0x8086" = a ++ v ++ b)
      /\ (d = "0x10fb" \/ d = "0x154d").
Proof.
  now rewrite recognized_iff, str_in_substrings, substrings_spec.
Qed.

(** ** The ways a run ends *)

(** X6: a run ends with one of the exit codes 0, 1, 2, 3, 255, or with an
    uncaught [IndexError], [ValueError] or error of the read command;
    as a process status that is one of 0, 1, 2, 3, 255, and 1 stands for
    the already-unlocked exit and for every uncaught exception alike. *)
Theorem X6_endings (w : world) :
  (In (ending w) [Exit 0; Exit 1; Exit 2; Exit 3; Exit 255;
                  Uncaught IndexError; Uncaught ValueError]
   \/ exists e, ending w = Uncaught (ProcError e))
  /\ In (exit_status (ending w)) [0; 1; 2; 3; 255].
Proof.
  run_cases w.
  - pose proof (acquire_spec w) as A. rewrite RA in A.
    inversion A; subst; cbn; split; eauto 10.
  - cbn. split; eauto 10.
  - cbn. split; eauto 10.
Qed.

(** X7: each [sys.exit], and the end of the script, comes right after
    the [print] of its own message: a run that ends with an exit code
    has that code's message as its last output. *)
Theorem X7_exit_message (w : world) (code : Z) :
  ending w = Exit code ->
  exists before, trace w = (before ++ [Print (exit_message w code)])%list.
Proof.
  intros He. run_cases w.
  - pose proof (acquire_spec w) as A. rewrite RA in A.
    inversion A; subst; try discriminate;
      match goal with
      | H : Exit _ = Exit code |- _ => injection H as <-
      end;
      match goal with
      | |- exists b, ?l = _ => exists (removelast l); reflexivity
      end.
  - injection He as <-.
    now exists (probe (r_intf r) ++ [Print (value_line r)])%list.
  - injection He as <-.
    match goal with
    | |- exists b, ?l = _ => exists (removelast l); reflexivity
    end.
Qed.

Lemma X7_exit_message_witness :
  exists before,
    trace host_other_card
    = (before ++ [Print "Not a recognized Intel x520 card."])%list.
Proof. exact (X7_exit_message host_other_card 3 eq_refl). Defined.

(** ** What a run touches *)

Lemma acquire_val_args (w : world) (t : list event) (r : readout) :
  acquire w = (t, Val r) ->
  exists rest vt,
    args w = r_intf r :: rest
    /\ read_file w (vendor_path (r_intf r)) = inl vt.
Proof.
  intros E.
  destruct (acquire_val_inv w r) as (rest & vt & dt & output & Ha & Hv & _).
  - now rewrite E.
  - eauto.
Qed.

(** X8: a run calls the accessor at most twice: first one read of one
    byte at offset 0x58 of the interface named by the first argument,
    then at most one write, of one byte at offset 0x58 of the same
    interface; never a write without the read before it. *)
Theorem X8_accessor_calls (w : world) :
  accessor_calls (trace w) = []
  \/ exists intf rest,
       args w = intf :: rest
       /\ let rd :=
            CheckOutput ["ethtool"; "-e"; intf; "offset"; "0x58"; "length"; "1"] in
          (accessor_calls (trace w) = [rd]
           \/ exists m v st,
                accessor_calls (trace w)
                = [rd;
                   System ("ethtool -E " ++ intf ++ " magic " ++ m
                           ++ " offset 0x58 value " ++ v ++ " length 1") st]).
Proof.
  run_cases w.
  - pose proof (acquire_spec w) as A. rewrite RA in A.
    inversion A; subst; try (now left); right; exists intf, rest;
      (split; [assumption | now left]).
  - destruct (acquire_val_args _ _ _ RA) as (rest & vt & Ha & _).
    right. exists (r_intf r), rest. split; [exact Ha | now left].
  - destruct (acquire_val_args _ _ _ RA) as (rest & vt & Ha & _).
    right. exists (r_intf r), rest. split; [exact Ha | right].
    exists (magic (r_dev_id r) (r_vdr_id r)), (hex (Z.lor (r_val_bin r) 1)),
      (os_system w (command_line (cmd_of r))).
    reflexivity.
Qed.

(** X9: the only files a run opens are the vendor and the device
    attribute of the interface named by the first argument: none without
    an argument, the vendor file first, and the device file exactly when
    the vendor file could be read. *)
Theorem X9_files_opened (w : world) :
  opens (trace w) =
    match args w with
    | [] => []
    | intf :: _ =>
        Open ("/sys/class/net/" ++ intf ++ "/device/vendor")
        :: match read_file w ("/sys/class/net/" ++ intf ++ "/device/vendor") with
           | inr _ => []
           | inl _ => [Open ("/sys/class/net/" ++ intf ++ "/device/device")]
           end
    end.
Proof.
  run_cases w.
  - pose proof (acquire_spec w) as A. rewrite RA in A.
    inversion A; subst; unfold probe, vendor_path, device_path in *;
      repeat match goal with
             | H : args w = _ |- _ => rewrite H; clear H
             | H : read_file w _ = _ |- _ => try rewrite H; clear H
             end; reflexivity.
  - destruct (acquire_val_args _ _ _ RA) as (rest & vt & Ha & Hv).
    unfold vendor_path in Hv. now rewrite Ha, Hv.
  - destruct (acquire_val_args _ _ _ RA) as (rest & vt & Ha & Hv).
    unfold vendor_path in Hv. now rewrite Ha, Hv.
Qed.

(** X10: only the first argument counts: the script name and any further
    arguments change nothing of a run that has its first argument. *)
Theorem X10_first_argument_only
    (w : world) (intf name' : string) (rest rest' : list string) :
  args w = intf :: rest ->
  run {| argv0 := name'; args := intf :: rest';
         read_file := read_file w; check_output := check_output w;
         os_system := os_system w |}
  = run w.
Proof.
  intros Ha. unfold run, main, get_intf. cbn [args]. now rewrite Ha.
Qed.

Lemma X10_first_argument_only_witness :
  run {| argv0 := "other.py"; args := ["eth4"; "eth5"];
         read_file := read_file host_locked;
         check_output := check_output host_locked;
         os_system := os_system host_locked |}
  = run host_locked.
Proof. exact (X10_first_argument_only host_locked "eth4" "other.py" [] ["eth5"] eq_refl). Defined.

(** ** The patched value *)

Lemma patch_some_inv (b p : Z) :
  patch b = Some p -> Z.land b 1 = 0 /\ p = Z.lor b 1.
Proof.
  destruct (bit0_cases b) as [H | H].
  - rewrite (patch_clear _ H). now intros [= <-].
  - now rewrite (patch_set _ H).
Qed.

(** X11: the patched value of a byte is a byte, the next integer. *)
Theorem X11_patch_byte (b p : Z) :
  0 <= b < 256 ->
  patch b = Some p ->
  p = b + 1 /\ 0 <= p < 256.
Proof.
  intros Hb Hp. apply patch_some_inv in Hp as [H0 ->].
  rewrite (lor_1_succ _ H0). split; [reflexivity |].
  change 1 with (Z.ones 1) in H0. rewrite Z.land_ones in H0 by lia.
  change (2 ^ 1) with 2 in H0.
  pose proof (Z.div_mod b 2 ltac:(lia)). lia.
Qed.

Lemma X11_patch_byte_witness : 253 = 252 + 1 /\ 0 <= 253 < 256.
Proof. apply (X11_patch_byte 252 253); [lia | reflexivity]. Defined.

(** X12: the policy is idempotent: a patched value has bit 0 set, so the
    same policy finds it already unlocked and patches nothing; and every
    other bit, above bit 7 too, is the bit of the value read. *)
Theorem X12_patch_idempotent (b p : Z) :
  patch b = Some p ->
  decision p = Some AlreadyUnlocked
  /\ patch p = None
  /\ Z.testbit p 0 = true
  /\ forall i, 0 < i -> Z.testbit p i = Z.testbit b i.
Proof.
  intros Hp. apply patch_some_inv in Hp as [H0 ->].
  assert (Z.land (Z.lor b 1) 1 = 1) as H1.
  { rewrite Z.land_lor_distr_l, H0. reflexivity. }
  split; [| split; [| split]].
  - unfold decision. now rewrite (policy_set _ H1).
  - now apply patch_set.
  - rewrite Z.lor_spec. cbn. apply orb_true_r.
  - intros i Hi. rewrite Z.lor_spec.
    destruct i; try lia. cbn. apply orb_false_r.
Qed.

Lemma X12_patch_idempotent_witness :
  decision 253 = Some AlreadyUnlocked
  /\ patch 253 = None
  /\ Z.testbit 253 0 = true
  /\ forall i, 0 < i -> Z.testbit 253 i = Z.testbit 252 i.
Proof. exact (X12_patch_idempotent 252 253 eq_refl). Defined.

(** ** The write is announced *)

(** X13: before the write the run reports the value it is about to
    write and the command it is about to run: a write event comes right
    after the line with the new value in hexadecimal and binary and the
    line with the list [cmd], the command run is that list joined by
    spaces, and its value argument is the [hex] of the reported value,
    a value with bit 0 set. *)
Theorem X13_write_announced (w : world) (cmd : string) (st : Z) :
  In (System cmd st) (trace w) ->
  exists before new_val items,
    trace w =
      (before
       ++ [Print ("New EEPROM Value at 0x58 will be " ++ hex new_val
                  ++ " (" ++ bin new_val ++ ")");
           PrintRunning items;
           System cmd st;
           Print "Reboot the machine for changes to take effect..."])%list
    /\ cmd = command_line items
    /\ nth_error items 8 = Some (AStr (hex new_val))
    /\ Z.land new_val 1 = 1.
Proof.
  intros Hin.
  destruct (write_event_inv _ _ _ Hin) as (r & A & B & -> & -> & E).
  unfold trace. rewrite E. cbn [fst].
  exists (probe (r_intf r)
          ++ [Print (value_line r);
              Print "Card is locked to Intel only SFP modules. Patching EEPROM..."])%list,
    (Z.lor (r_val_bin r) 1), (cmd_of r).
  repeat split.
  rewrite Z.land_lor_distr_l, B. reflexivity.
Qed.

Lemma X13_write_announced_witness :
  exists before new_val items,
    trace host_locked =
      (before
       ++ [Print ("New EEPROM Value at 0x58 will be " ++ hex new_val
                  ++ " (" ++ bin new_val ++ ")");
           PrintRunning items;
           System "ethtool -E eth4 magic 0x10fb8086 offset 0x58 value 0x1 length 1" 0;
           Print "Reboot the machine for changes to take effect..."])%list
    /\ "ethtool -E eth4 magic 0x10fb8086 offset 0x58 value 0x1 length 1"
       = command_line items
    /\ nth_error items 8 = Some (AStr (hex new_val))
    /\ Z.land new_val 1 = 1.
Proof.
  apply (X13_write_announced host_locked). vm_compute. tauto.
Defined.
